(** * Mimoza API: schemas, product queries and CSV import/export

    A shallow embedding of [src/schemas.py] (the declarative entity schemas)
    and of [src/main.py] (the route handlers) together with the properties
    that the specification states about them.

    Python values are an inductive type, dictionaries (request bodies, CSV
    rows, stored documents) are [gmap string pyval], Python [float] is IEEE
    binary64 as [spec_float], and handlers are computations in a small
    state-and-exception monad over the document store. *)

From Stdlib Require Import ZArith NArith List Ascii String Bool Lia.
From Stdlib Require Import Sorted Permutation SpecFloat.
From stdpp Require Import gmap strings list fin_maps.

Local Open Scope string_scope.
Local Open Scope Z_scope.
Local Open Scope list_scope.

(** ** Python values and builtins *)

Module Py.

(** An ObjectId is a byte string (twelve bytes when the store generates it). *)
Definition oid := list N.

(** [PUrl u] is the [Url] object that the validation library makes of a
    URL field; [u] is its text. It is no [str]. *)
#[warnings="-register-all"]
Inductive pyval :=
| PNone
| PBool (b : bool)
| PInt (z : Z)
| PFloat (f : spec_float)
| PStr (s : string)
| PObjectId (o : oid)
| PList (l : list pyval)
| PUrl (u : string).

(** A [str] is a sequence of characters; [chars] and [str_of] move between
    the two views. *)
Definition chars (s : string) : list ascii := list_ascii_of_string s.
Definition str_of (l : list ascii) : string := string_of_list_ascii l.

Definition prec : Z := 53.
Definition emax : Z := 1024.
Definition fzero : spec_float := S754_zero false.
Definition feqb (a b : spec_float) : bool := SFeqb a b.
Definition fleb (a b : spec_float) : bool := SFleb a b.
Definition fltb (a b : spec_float) : bool := SFltb a b.

(** [float(n)] for an [int]: the nearest binary64 value. *)
Definition float_of_Z (z : Z) : spec_float :=
  binary_normalize prec emax z 0 false.

(** The binary64 value nearest to [(-1)^neg * m * 10^e], for [0 <= m]. *)
Definition float_of_decimal (neg : bool) (m : Z) (e : Z) : spec_float :=
  match m with
  | Zpos p =>
      if 0 <=? e then binary_normalize prec emax ((if neg then - m else m) * 10 ^ e) 0 neg
      else match 10 ^ (- e) with
           | Zpos q => SFdiv prec emax (S754_finite neg p 0) (S754_finite false q 0)
           | _ => S754_nan
           end
  | _ => S754_zero neg
  end.

(** *** [float(s)] for a [str] *)

Definition is_digit (c : ascii) : bool :=
  let n := N_of_ascii c in ((48 <=? n) && (n <=? 57))%N.

Definition digit_val (c : ascii) : Z := Z.of_N (N_of_ascii c) - 48.

(** The whitespace [float] drops around a number: tab to carriage return,
    space, and NEL and NBSP in the Latin-1 range. *)
Definition is_space (c : ascii) : bool :=
  let n := N_of_ascii c in
  (((9 <=? n) && (n <=? 13)) || (n =? 32) || (n =? 133) || (n =? 160))%N.

Definition to_lower (c : ascii) : ascii :=
  let n := N_of_ascii c in
  if ((65 <=? n) && (n <=? 90))%N then ascii_of_N (n + 32) else c.

Definition lower (l : list ascii) : list ascii := map to_lower l.

Definition ascii_eqb (a b : ascii) : bool := Ascii.eqb a b.

Fixpoint chars_eqb (a b : list ascii) : bool :=
  match a, b with
  | [], [] => true
  | x :: a', y :: b' => ascii_eqb x y && chars_eqb a' b'
  | _, _ => false
  end.

Fixpoint lstrip (l : list ascii) : list ascii :=
  match l with
  | c :: l' => if is_space c then lstrip l' else l
  | [] => []
  end.

Definition strip (l : list ascii) : list ascii :=
  rev (lstrip (rev (lstrip l))).

(** [(["_"] digit)*]: the digits read so far are [acc], [cnt] of them. *)
Fixpoint digits_run (acc cnt : Z) (l : list ascii) : Z * Z * list ascii :=
  match l with
  | c :: l' =>
      if is_digit c then digits_run (acc * 10 + digit_val c) (cnt + 1) l'
      else if ascii_eqb c "_" then
        match l' with
        | d :: l'' =>
            if is_digit d then digits_run (acc * 10 + digit_val d) (cnt + 1) l''
            else (acc, cnt, l)
        | [] => (acc, cnt, l)
        end
      else (acc, cnt, l)
  | [] => (acc, cnt, l)
  end.

(** [digitpart ::= digit (["_"] digit)*], continuing the number [acc]. *)
Definition digitpart (acc : Z) (l : list ascii) : option (Z * Z * list ascii) :=
  match l with
  | c :: l' => if is_digit c then Some (digits_run (acc * 10 + digit_val c) 1 l') else None
  | [] => None
  end.

Definition sign_of (l : list ascii) : bool * list ascii :=
  match l with
  | c :: l' =>
      if ascii_eqb c "-" then (true, l')
      else if ascii_eqb c "+" then (false, l') else (false, l)
  | [] => (false, l)
  end.

(** [number ::= [digitpart] "." digitpart | digitpart ["."]]: the digits as
    one integer, the number of them after the point, and the rest. *)
Definition number (l : list ascii) : option (Z * Z * list ascii) :=
  match digitpart 0 l with
  | Some (m, _, r) =>
      match r with
      | c :: r' =>
          if ascii_eqb c "." then
            match digitpart m r' with
            | Some (m', k, r'') => Some (m', k, r'')
            | None => Some (m, 0, r')
            end
          else Some (m, 0, r)
      | [] => Some (m, 0, r)
      end
  | None =>
      match l with
      | c :: r' => if ascii_eqb c "." then digitpart 0 r' else None
      | [] => None
      end
  end.

(** [exponent ::= ("e" | "E") [sign] digitpart]; no exponent is exponent 0. *)
Definition exponent (l : list ascii) : option (Z * list ascii) :=
  match l with
  | c :: l' =>
      if ascii_eqb (to_lower c) "e" then
        let '(neg, l'') := sign_of l' in
        match digitpart 0 l'' with
        | Some (x, _, r) => Some (if neg then - x else x, r)
        | None => None
        end
      else Some (0, l)
  | [] => Some (0, l)
  end.

Definition absfloatvalue (neg : bool) (l : list ascii) : option spec_float :=
  let w := lower l in
  if chars_eqb w (chars "inf") || chars_eqb w (chars "infinity") then Some (S754_infinity neg)
  else if chars_eqb w (chars "nan") then Some S754_nan
  else
    match number l with
    | Some (m, k, r) =>
        match exponent r with
        | Some (x, []) => Some (float_of_decimal neg m (x - k))
        | _ => None
        end
    | None => None
    end.

(** [float(s)]: [None] stands for the [ValueError] Python raises. *)
Definition float_of_string (s : string) : option spec_float :=
  let '(neg, l) := sign_of (strip (chars s)) in absfloatvalue neg l.

(** *** [repr(x)] for a [float]: the shortest decimal string that reads back
    as [x], in fixed notation for decimal exponents from -4 to 15 *)

(** Is [num / den >= 10^p] ? *)
Definition ge_pow10 (num den p : Z) : bool :=
  if 0 <=? p then den * 10 ^ p <=? num else den <=? num * 10 ^ (- p).

(** The [p] with [10^(p-1) <= num/den < 10^p], searched from a guess. *)
Fixpoint decpt_up (fuel : nat) (num den p : Z) : Z :=
  match fuel with
  | O => p
  | S n => if ge_pow10 num den p then decpt_up n num den (p + 1) else p
  end.

Fixpoint decpt_down (fuel : nat) (num den p : Z) : Z :=
  match fuel with
  | O => p
  | S n => if ge_pow10 num den (p - 1) then p else decpt_down n num den (p - 1)
  end.

Definition decpt_of (num den : Z) : Z :=
  let guess := (Z.log2 num - Z.log2 den) * 30103 / 100000 in
  decpt_down 8 num den (decpt_up 8 num den guess).

(** [floor (num / den / 10^k)] and whether twice the remainder is below,
    at, or above one unit. *)
Definition scaled_floor (num den k : Z) : Z * comparison :=
  let '(n, d) := if 0 <=? k then (num, den * 10 ^ k) else (num * 10 ^ (- k), den) in
  (n / d, (2 * (n mod d)) ?= d).

Definition reads_back (m : positive) (e : Z) (d k : Z) : bool :=
  feqb (float_of_decimal false d k) (S754_finite false m e).

(** The shortest digits, tried with 1, 2, ... up to 17 significant digits:
    of the two neighbours with that many digits, the nearer one if it reads
    back, else the other one if it does. *)
Fixpoint shortest (fuel : nat) (n : Z) (m : positive) (e : Z) (num den p : Z) : Z * Z :=
  let k := p - n in
  let '(lo, c) := scaled_floor num den k in
  let hi := lo + 1 in
  let '(fst_try, snd_try) :=
    match c with
    | Lt => (lo, hi)
    | Gt => (hi, lo)
    | Eq => if Z.even lo then (lo, hi) else (hi, lo)
    end in
  match fuel with
  | O => (fst_try, k)
  | S fuel' =>
      if reads_back m e fst_try k then (fst_try, k)
      else if reads_back m e snd_try k then (snd_try, k)
      else shortest fuel' (n + 1) m e num den p
  end.

Fixpoint strip_zeros (fuel : nat) (d k : Z) : Z * Z :=
  match fuel with
  | O => (d, k)
  | S n => if (d mod 10 =? 0) && negb (d =? 0) then strip_zeros n (d / 10) (k + 1) else (d, k)
  end.

Fixpoint digits_of (fuel : nat) (d : Z) (acc : list ascii) : list ascii :=
  match fuel with
  | O => acc
  | S n =>
      let acc' := ascii_of_N (Z.to_N (d mod 10) + 48) :: acc in
      if d <? 10 then acc' else digits_of n (d / 10) acc'
  end.

(** The decimal digits of a natural number. *)
Definition decimal (d : Z) : list ascii :=
  digits_of (S (Z.to_nat (Z.log2 d))) d [].

Definition zeros (n : Z) : list ascii := repeat "0"%char (Z.to_nat n).

Definition format_repr (ds : list ascii) (decpt : Z) : list ascii :=
  let len := Z.of_nat (length ds) in
  if (-4 <? decpt) && (decpt <=? 16) then
    if decpt <=? 0 then chars "0." ++ zeros (- decpt) ++ ds
    else if decpt <? len then
      take (Z.to_nat decpt) ds ++ chars "." ++ drop (Z.to_nat decpt) ds
    else ds ++ zeros (decpt - len) ++ chars ".0"
  else
    let x := decpt - 1 in
    let xs := decimal (Z.abs x) in
    take 1 ds ++ (if 1 <? len then chars "." ++ drop 1 ds else [])
      ++ chars "e" ++ chars (if x <? 0 then "-" else "+")
      ++ (if Z.abs x <? 10 then chars "0" else []) ++ xs.

Definition float_repr (f : spec_float) : string :=
  match f with
  | S754_nan => "nan"
  | S754_infinity s => if s then "-inf" else "inf"
  | S754_zero s => if s then "-0.0" else "0.0"
  | S754_finite s m e =>
      let '(num, den) := if 0 <=? e then (Zpos m * 2 ^ e, 1) else (Zpos m, 2 ^ (- e)) in
      let p := decpt_of num den in
      let '(d, k) := shortest 17 1 m e num den p in
      let '(d', k') := strip_zeros 400 d k in
      let ds := decimal d' in
      str_of ((if s then chars "-" else []) ++ format_repr ds (k' + Z.of_nat (length ds)))
  end.

(** *** Truthiness, [or], [str] and [repr] *)

Definition truthy (v : pyval) : bool :=
  match v with
  | PNone => false
  | PBool b => b
  | PInt z => negb (z =? 0)
  | PFloat f => negb (feqb f fzero)
  | PStr s => negb (String.eqb s "")
  | PObjectId _ => true
  | PList l => match l with [] => false | _ => true end
  | PUrl _ => true
  end.

(** [a or b] *)
Definition por (a b : pyval) : pyval := if truthy a then a else b.

Definition hex_digit (n : N) : ascii :=
  ascii_of_N (if (n <? 10)%N then n + 48 else n + 87).

(** [binascii.hexlify]: two lower-case hex digits per byte. *)
Definition hexlify (o : oid) : list ascii :=
  flat_map (fun b => [hex_digit (b / 16); hex_digit (b mod 16)]) o.

Definition int_str (z : Z) : list ascii :=
  (if z <? 0 then chars "-" else []) ++ decimal (Z.abs z).

Definition printable (c : ascii) : bool :=
  let n := N_of_ascii c in
  ((32 <=? n) && (n <? 127) || (160 <? n) && negb (n =? 173))%N.

Definition backslash : ascii := ascii_of_N 92.

Definition repr_char (quote c : ascii) : list ascii :=
  let n := N_of_ascii c in
  if ascii_eqb c quote || ascii_eqb c backslash then [backslash; c]
  else if (n =? 9)%N then [backslash; "t"%char]
  else if (n =? 10)%N then [backslash; "n"%char]
  else if (n =? 13)%N then [backslash; "r"%char]
  else if printable c then [c]
  else [backslash; "x"%char; hex_digit (n / 16); hex_digit (n mod 16)].

Definition apostrophe : ascii := "'".
Definition dquote : ascii := ascii_of_N 34.

Definition has_char (c : ascii) (l : list ascii) : bool := existsb (ascii_eqb c) l.

Definition repr_str (l : list ascii) : list ascii :=
  let quote := if has_char apostrophe l && negb (has_char dquote l) then dquote else apostrophe in
  [quote] ++ flat_map (repr_char quote) l ++ [quote].

Fixpoint repr (v : pyval) : list ascii :=
  match v with
  | PNone => chars "None"
  | PBool b => chars (if b then "True" else "False")
  | PInt z => int_str z
  | PFloat f => chars (float_repr f)
  | PStr s => repr_str (chars s)
  | PObjectId o => chars "ObjectId('" ++ hexlify o ++ chars "')"
  | PList l =>
      chars "["
      ++ (fix items (l : list pyval) : list ascii :=
            match l with
            | [] => []
            | [x] => repr x
            | x :: l' => (repr x ++ chars ", " ++ items l')%list
            end) l
      ++ chars "]"
  | PUrl u => chars "Url(" ++ repr_str (chars u) ++ chars ")"
  end.

(** [str(v)] *)
Definition str (v : pyval) : string :=
  match v with
  | PStr s => s
  | PObjectId o => str_of (hexlify o)
  | PUrl u => u
  | _ => str_of (repr v)
  end.

(** [float(v)]: [None] stands for the [ValueError] or [TypeError] raised. *)
Definition float (v : pyval) : option spec_float :=
  match v with
  | PFloat f => Some f
  | PInt z => Some (float_of_Z z)
  | PBool b => Some (float_of_Z (if b then 1 else 0))
  | PStr s => float_of_string s
  | _ => None
  end.

(** [s.replace(old, new)] for a one-character [old]. *)
Definition replace_char (old : ascii) (new : list ascii) (l : list ascii) : list ascii :=
  flat_map (fun c => if ascii_eqb c old then new else [c]) l.

Definition newline : ascii := ascii_of_N 10.
Definition carriage_return : ascii := ascii_of_N 13.

(** A dictionary and [d.get(k)], [d.get(k, default)]. *)
Definition get (d : gmap string pyval) (k : string) : pyval := default PNone (d !! k).
Definition get_or (d : gmap string pyval) (k : string) (dflt : pyval) : pyval :=
  default dflt (d !! k).

End Py.
Import Py.

(** ** The validation library: declarative field types and their validators

    [schemas.py] declares every entity as a list of annotated fields; the
    models below keep that shape, and [validate_model] is the validation
    every model construction runs (lax mode: numbers may arrive as [int],
    [bool] or numeric [str]). *)

Module Pydantic.

Inductive ftype :=
| TStr
| TBool
| TFloat (ge : option Z)
| TLiteral (choices : list string)
| TOptional (t : ftype)
| TList (t : ftype)
| TCustom (err : string) (validator : pyval -> option pyval)
| TLegacy (validator : pyval -> option pyval).

(** [TCustom] is a type of the library with its validator. [TLegacy] is a
    class of the program that declares its validator in the style of the
    library's version 1: [__get_validators__] yielding a function of the
    value alone. *)

(** [default = None] is a required field ([Field(...)] or a bare annotation). *)
Record field := Field { fname : string; annotation : ftype; fdefault : option pyval }.

Definition model := list field.

Definition bool_words : list (string * bool) :=
  [("0", false); ("off", false); ("f", false); ("false", false); ("n", false); ("no", false);
   ("1", true); ("on", true); ("t", true); ("true", true); ("y", true); ("yes", true)].

Definition lookup_word (s : string) : option bool :=
  snd <$> List.find (fun p => String.eqb (fst p) (str_of (lower (chars s)))) bool_words.

Definition validate_bool (v : pyval) : string + pyval :=
  match v with
  | PBool b => inr (PBool b)
  | PInt 0 => inr (PBool false)
  | PInt 1 => inr (PBool true)
  | PFloat f =>
      if feqb f fzero then inr (PBool false)
      else if feqb f (float_of_Z 1) then inr (PBool true) else inl "bool_type"
  | PStr s => match lookup_word s with Some b => inr (PBool b) | None => inl "bool_parsing" end
  | PInt _ => inl "bool_parsing"
  | _ => inl "bool_type"
  end.

Definition is_infinite (f : spec_float) : bool :=
  match f with S754_infinity _ => true | _ => false end.

(** An [int] that is too large for a float is no valid float; a string
    that reads as an infinity is one. *)
Definition validate_float (ge : option Z) (v : pyval) : string + pyval :=
  match v with
  | PFloat _ | PInt _ | PBool _ | PStr _ =>
      match float v with
      | Some f =>
          if match v with PInt _ => is_infinite f | _ => false end then inl "float_type"
          else
            match ge with
            | Some bound =>
                if fleb (float_of_Z bound) f then inr (PFloat f) else inl "greater_than_equal"
            | None => inr (PFloat f)
            end
      | None => inl "float_parsing"
      end
  | _ => inl "float_type"
  end.

Definition in_choices (s : string) (choices : list string) : bool :=
  existsb (String.eqb s) choices.

Fixpoint validate_value (t : ftype) (v : pyval) : string + pyval :=
  match t with
  | TStr => match v with PStr s => inr (PStr s) | _ => inl "string_type" end
  | TBool => validate_bool v
  | TFloat ge => validate_float ge v
  | TLiteral choices =>
      match v with
      | PStr s => if in_choices s choices then inr (PStr s) else inl "literal_error"
      | _ => inl "literal_error"
      end
  | TOptional t' => match v with PNone => inr PNone | _ => validate_value t' v end
  | TList t' =>
      match v with
      | PList l =>
          match
            (fix items (l : list pyval) : string + list pyval :=
               match l with
               | [] => inr []
               | x :: l' =>
                   match validate_value t' x, items l' with
                   | inr x', inr r => inr (x' :: r)
                   | inl e, _ => inl e
                   | _, inl e => inl e
                   end
               end) l
          with
          | inr l' => inr (PList l')
          | inl e => inl e
          end
      | _ => inl "list_type"
      end
  | TCustom err f => match f v with Some v' => inr v' | None => inl err end
  | TLegacy f => match f v with Some v' => inr v' | None => inl "value_error" end
  end.

(** Does validating [v] against [t] call a version 1 style validator? The
    library, which is at version 2 ([model_dump], [model_fields]), calls such
    a validator with two arguments, the value and the validation info. A
    function of the value alone then raises [TypeError], which is no
    validation error: it ends the validation and leaves the constructor.
    For such a type [validate_value] is what the validator would answer if it
    were called with the value alone, which the library never does. *)
Fixpoint crashes (t : ftype) (v : pyval) : bool :=
  match t with
  | TLegacy _ => true
  | TOptional t' => match v with PNone => false | _ => crashes t' v end
  | TList t' => match v with PList l => existsb (crashes t') l | _ => false end
  | _ => false
  end.

(** One error per offending field: its name and the kind of error. *)
Definition verror : Type := string * string.

Inductive validation :=
| Valid (fields : gmap string pyval)
| Invalid (errors : list verror)
| Aborted.

Fixpoint validate_fields (fs : model) (raw : gmap string pyval)
  : list verror * gmap string pyval :=
  match fs with
  | [] => ([], ∅)
  | f :: fs' =>
      let '(errs, out) := validate_fields fs' raw in
      match raw !! fname f with
      | None =>
          match fdefault f with
          | Some d => (errs, <[fname f := d]> out)
          | None => ((fname f, "missing") :: errs, out)
          end
      | Some v =>
          match validate_value (annotation f) v with
          | inr v' => (errs, <[fname f := v']> out)
          | inl e => ((fname f, e) :: errs, out)
          end
      end
  end.

(** Every field that is given is validated, also after an error in
    another field; defaults are not validated. *)
Definition model_crashes (m : model) (raw : gmap string pyval) : bool :=
  existsb (fun f => match raw !! fname f with
                    | Some v => crashes (annotation f) v
                    | None => false
                    end) m.

(** Constructing a model from keyword arguments or a request body; the
    result of a successful validation is the model's field dictionary
    (what [model_dump] returns). Keys that are not fields are ignored.
    [Aborted] is the [TypeError] of a validator called with one argument
    too many. *)
Definition validate_model (m : model) (raw : gmap string pyval) : validation :=
  if model_crashes m raw then Aborted
  else
    match validate_fields m raw with
    | ([], out) => Valid out
    | (errs, _) => Invalid errs
    end.

Definition model_fields (m : model) : list string := map fname m.

(** A type that involves no version 1 style validator. *)
Fixpoint legacy_free (t : ftype) : bool :=
  match t with
  | TLegacy _ => false
  | TOptional t' | TList t' => legacy_free t'
  | _ => true
  end.

End Pydantic.
Import Pydantic.

(** ** schemas.py *)

Module Schemas.

Section Schemas.

(** The validators of the three library types the schemas use. Each takes
    the raw value and returns the validated one, or nothing when the value
    is not a well-formed URL, e-mail address or date. For a URL the
    validated value is a [Url] object, and [HttpUrl] gives its text. *)
Variable HttpUrl : pyval -> option string.
Variable EmailStr : pyval -> option pyval.
Variable date : pyval -> option pyval.

Definition url (v : pyval) : option pyval := PUrl <$> HttpUrl v.

Definition categories : list string :=
  ["sobne biljke"; "trajnica"; "grmovi"; "zivica"; "povrtne sadnice";
   "zacinsko bilje"; "sezonsko cvijece"; "posude i aranzmani"].

Definition availabilities : list string := ["na stanju"; "sezonski"; "rasprodano"].

Definition Product : model :=
  [ Field "name" TStr None;
    Field "category" (TLiteral categories) None;
    Field "price" (TFloat (Some 0)) None;
    Field "availability" (TLiteral availabilities) (Some (PStr "na stanju"));
    Field "sku" (TOptional TStr) (Some PNone);
    Field "care" (TOptional TStr) (Some PNone);
    Field "image" (TOptional (TCustom "url_parsing" url)) (Some PNone) ].

Definition Order : model :=
  [ Field "full_name" TStr None;
    Field "phone" TStr None;
    Field "email" (TOptional (TCustom "value_error" EmailStr)) (Some PNone);
    Field "message" (TOptional TStr) (Some PNone);
    Field "event_date" (TOptional (TCustom "date_parsing" date)) (Some PNone);
    Field "pickup" TBool (Some (PBool true));
    Field "delivery" TBool (Some (PBool false));
    Field "budget_eur" (TOptional (TFloat (Some 0))) (Some PNone);
    Field "reference_images" (TOptional (TList (TCustom "url_parsing" url))) (Some PNone);
    Field "consent" TBool None ].

Definition Contact : model :=
  [ Field "full_name" TStr None;
    Field "phone" (TOptional TStr) (Some PNone);
    Field "email" (TOptional (TCustom "value_error" EmailStr)) (Some PNone);
    Field "message" TStr None;
    Field "consent" TBool None ].

Definition gallery_categories : list string :=
  ["staklenik"; "buketi"; "krajobraz"; "sezonske vitrine"].

Definition Gallery : model :=
  [ Field "title" TStr None;
    Field "category" (TLiteral gallery_categories) None;
    Field "image" (TCustom "url_parsing" url) None;
    Field "photographer" (TOptional TStr) (Some PNone);
    Field "alt" (TOptional TStr) (Some PNone) ].

Definition Post : model :=
  [ Field "title" TStr None;
    Field "slug" TStr None;
    Field "excerpt" (TOptional TStr) (Some PNone);
    Field "content" TStr None;
    Field "cover_image" (TOptional (TCustom "url_parsing" url)) (Some PNone);
    Field "published" TBool (Some (PBool true)) ].

End Schemas.

End Schemas.

(** ** The store's identifiers: [bson.ObjectId] *)

Module Bson.

Definition hex_val (c : ascii) : option N :=
  let n := N_of_ascii c in
  if ((48 <=? n) && (n <=? 57))%N then Some (n - 48)%N
  else if ((97 <=? n) && (n <=? 102))%N then Some (n - 87)%N
  else if ((65 <=? n) && (n <=? 70))%N then Some (n - 55)%N
  else None.

Definition is_hex (c : ascii) : bool :=
  match hex_val c with Some _ => true | None => false end.

Definition ascii_space (c : ascii) : bool :=
  let n := N_of_ascii c in (((9 <=? n) && (n <=? 13)) || (n =? 32))%N.

(** [bytes.fromhex]: two hex digits per byte, ASCII whitespace in front of
    a byte or at the end is skipped. *)
Fixpoint fromhex (l : list ascii) : option oid :=
  match l with
  | [] => Some []
  | c :: l' =>
      if ascii_space c then fromhex l'
      else
        match hex_val c, l' with
        | Some hi, d :: l'' =>
            match hex_val d with
            | Some lo => cons (hi * 16 + lo)%N <$> fromhex l''
            | None => None
            end
        | _, _ => None
        end
  end.

(** [ObjectId(s)] for a [str]: 24 characters that [bytes.fromhex] reads;
    [None] stands for [InvalidId]. *)
Definition ObjectId (s : string) : option oid :=
  if (length (chars s) =? 24)%nat then fromhex (chars s) else None.

(** [ObjectId.is_valid(s)] *)
Definition is_valid (s : string) : bool :=
  if String.eqb s "" then false
  else match ObjectId s with Some _ => true | None => false end.

Fixpoint big_endian (n : nat) (x : N) : oid :=
  match n with
  | O => []
  | S n' => (big_endian n' (x / 256)%N ++ [(x mod 256)%N])%list
  end.

(** The identifier the store gives to its [n]-th inserted document. *)
Definition new_oid (n : N) : oid := big_endian 12 n.

(** What the driver cannot encode: an object of a type it does not know,
    as a [Url] is, and an integer beyond 64 bits. *)
Fixpoint holds_url (v : pyval) : bool :=
  match v with
  | PUrl _ => true
  | PList l => existsb holds_url l
  | _ => false
  end.

Definition int64 (z : Z) : bool := (- 2 ^ 63 <=? z) && (z <? 2 ^ 63).

Fixpoint holds_big_int (v : pyval) : bool :=
  match v with
  | PInt z => negb (int64 z)
  | PList l => existsb holds_big_int l
  | _ => false
  end.

End Bson.

(** ** The store's regular expressions

    The query operator [$regex] searches the pattern anywhere in the field.
    Modelled here are the patterns made of ordinary characters, the
    wildcard [.] (any character but a newline) and a backslash in front of a
    character that is not a letter or a digit (that character, literally).
    A pattern that ends in a lone backslash does not compile. Patterns that
    use any other operator are outside this model. With the option [i] the
    letters A-Z and a-z are compared without regard to case. *)

Module Regex.

Inductive atom := Lit (c : ascii) | AnyChar.

Inductive compiled :=
| Pattern (atoms : list atom)
| Malformed
| Unsupported.

Definition metachars : list ascii :=
  [backslash; "^"; "$"; "."; "["; "|"; "("; ")"; "?"; "*"; "+"; "{"]%char.

Definition is_meta (c : ascii) : bool := has_char c metachars.

Definition is_alnum (c : ascii) : bool :=
  let n := N_of_ascii c in
  (((48 <=? n) && (n <=? 57)) || ((65 <=? n) && (n <=? 90)) || ((97 <=? n) && (n <=? 122)))%N.

Definition push (a : atom) (r : compiled) : compiled :=
  match r with Pattern l => Pattern (a :: l) | _ => r end.

Fixpoint compile (l : list ascii) : compiled :=
  match l with
  | [] => Pattern []
  | c :: l' =>
      if ascii_eqb c backslash then
        match l' with
        | [] => Malformed
        | e :: l'' => if is_alnum e then Unsupported else push (Lit e) (compile l'')
        end
      else if ascii_eqb c "." then push AnyChar (compile l')
      else if is_meta c then Unsupported
      else push (Lit c) (compile l')
  end.

Definition atom_matches (caseless : bool) (a : atom) (c : ascii) : bool :=
  match a with
  | Lit x => if caseless then ascii_eqb (to_lower x) (to_lower c) else ascii_eqb x c
  | AnyChar => negb (ascii_eqb c newline)
  end.

(** The atoms match a prefix of the text. *)
Fixpoint match_here (caseless : bool) (atoms : list atom) (text : list ascii) : bool :=
  match atoms, text with
  | [], _ => true
  | a :: atoms', c :: text' => atom_matches caseless a c && match_here caseless atoms' text'
  | _ :: _, [] => false
  end.

(** The atoms match somewhere in the text. *)
Fixpoint search (caseless : bool) (atoms : list atom) (text : list ascii) : bool :=
  match_here caseless atoms text
  || match text with
     | [] => false
     | _ :: text' => search caseless atoms text'
     end.

Definition caseless_option (options : string) : bool := has_char "i" (chars options).

End Regex.

(** ** The document store

    A database is a family of collections, each the list of its documents in
    insertion order, which is also the order in which an unsorted [find]
    yields them. The store accepts every document that reaches it; what
    the driver cannot encode does not reach it (see [Runtime.insert_one]). *)

Module Mongo.

Inductive cond :=
| CEq (v : pyval)
| CRegex (pattern options : string).

Record database := Database {
  collections : gmap string (list (gmap string pyval));
  inserted : N
}.

Definition docs_of (d : database) (coll : string) : list (gmap string pyval) :=
  default [] (collections d !! coll).

Fixpoint compare_chars (a b : list ascii) : comparison :=
  match a, b with
  | [], [] => Eq
  | [], _ :: _ => Lt
  | _ :: _, [] => Gt
  | x :: a', y :: b' =>
      match (N_of_ascii x ?= N_of_ascii y)%N with
      | Eq => compare_chars a' b'
      | c => c
      end
  end.

Fixpoint compare_bytes (a b : oid) : comparison :=
  match a, b with
  | [], [] => Eq
  | [], _ :: _ => Lt
  | _ :: _, [] => Gt
  | x :: a', y :: b' =>
      match (x ?= y)%N with
      | Eq => compare_bytes a' b'
      | c => c
      end
  end.

(** The store's order of values of different types: a missing field and
    null first, then numbers, strings, arrays, identifiers, booleans. (No
    stored document holds a [Url]: the driver cannot encode one.) *)
Definition type_rank (x : option pyval) : Z :=
  match x with
  | None | Some PNone | Some (PUrl _) => 1
  | Some (PInt _) | Some (PFloat _) => 2
  | Some (PStr _) => 3
  | Some (PList _) => 5
  | Some (PObjectId _) => 7
  | Some (PBool _) => 8
  end.

Definition compare_numbers (a b : spec_float) : comparison :=
  match SFcompare a b with
  | Some c => c
  | None =>
      match a, b with
      | S754_nan, S754_nan => Eq
      | S754_nan, _ => Lt
      | _, _ => Gt
      end
  end.

(** The order a sort uses on one field; arrays are not ordered further. *)
Definition compare_values (x y : option pyval) : comparison :=
  match x, y with
  | Some (PStr a), Some (PStr b) => compare_chars (chars a) (chars b)
  | Some (PInt a), Some (PInt b) => a ?= b
  | Some (PInt a), Some (PFloat b) => compare_numbers (float_of_Z a) b
  | Some (PFloat a), Some (PInt b) => compare_numbers a (float_of_Z b)
  | Some (PFloat a), Some (PFloat b) => compare_numbers a b
  | Some (PObjectId a), Some (PObjectId b) => compare_bytes a b
  | Some (PBool a), Some (PBool b) => Bool.compare a b
  | _, _ => type_rank x ?= type_rank y
  end.

(** [a] may stand before [b] when sorting on [key] in direction [dir]
    (1 ascending, -1 descending). *)
Definition in_order (key : string) (dir : Z) (a b : gmap string pyval) : bool :=
  match compare_values (a !! key) (b !! key) with
  | Eq => true
  | Lt => 0 <=? dir
  | Gt => dir <? 0
  end.

Fixpoint insert_sorted {A} (leb : A -> A -> bool) (x : A) (l : list A) : list A :=
  match l with
  | [] => [x]
  | y :: l' => if leb x y then x :: l else y :: insert_sorted leb x l'
  end.

(** [cursor.sort(key, dir)]; documents with equal keys keep their order. *)
Definition sort (key : string) (dir : Z) (l : list (gmap string pyval))
  : list (gmap string pyval) :=
  foldr (insert_sorted (in_order key dir)) [] l.

Fixpoint value_eqb (a b : pyval) : bool :=
  match a, b with
  | PNone, PNone => true
  | PBool x, PBool y => Bool.eqb x y
  | PInt x, PInt y => x =? y
  | PInt x, PFloat y => feqb (float_of_Z x) y
  | PFloat x, PInt y => feqb x (float_of_Z y)
  | PFloat x, PFloat y => feqb x y
  | PStr x, PStr y => String.eqb x y
  | PObjectId x, PObjectId y => match compare_bytes x y with Eq => true | _ => false end
  | PList x, PList y =>
      (fix all2 (x y : list pyval) : bool :=
         match x, y with
         | [], [] => true
         | u :: x', v :: y' => value_eqb u v && all2 x' y'
         | _, _ => false
         end) x y
  | _, _ => false
  end.

(** The values a condition on a field is tried on: the field's value, and
    for an array each of its elements too. *)
Definition candidates (x : option pyval) : list pyval :=
  match x with
  | None => []
  | Some (PList l) => PList l :: l
  | Some v => [v]
  end.

Definition holds (c : cond) (x : option pyval) : bool :=
  match c with
  | CEq PNone => match x with None | Some PNone => true | _ => existsb (value_eqb PNone) (candidates x) end
  | CEq v => existsb (fun y => value_eqb y v) (candidates x)
  | CRegex pattern options =>
      match Regex.compile (chars pattern) with
      | Regex.Pattern atoms =>
          existsb (fun y => match y with
                            | PStr s => Regex.search (Regex.caseless_option options) atoms (chars s)
                            | _ => false
                            end) (candidates x)
      | _ => false
      end
  end.

(** A document matches a query when every condition of the query holds. *)
Definition matches (q : gmap string cond) (doc : gmap string pyval) : bool :=
  forallb (fun kc => holds (snd kc) (doc !! fst kc)) (map_to_list q).

Definition pattern_of (c : cond) : Regex.compiled :=
  match c with
  | CRegex pattern _ => Regex.compile (chars pattern)
  | CEq _ => Regex.Pattern []
  end.

Definition is_malformed (r : Regex.compiled) : bool :=
  match r with Regex.Malformed => true | _ => false end.

Definition is_unsupported (r : Regex.compiled) : bool :=
  match r with Regex.Unsupported => true | _ => false end.

Definition find_docs (d : database) (coll : string) (q : gmap string cond)
  : list (gmap string pyval) :=
  List.filter (matches q) (docs_of d coll).

Definition set_docs (d : database) (coll : string) (l : list (gmap string pyval)) : database :=
  Database (<[coll := l]> (collections d)) (inserted d).

(** [insert_one]: a document without [_id] gets a new identifier. *)
Definition insert_doc (d : database) (coll : string) (doc : gmap string pyval)
  : database * pyval :=
  let id := default (PObjectId (Bson.new_oid (inserted d))) (doc !! "_id") in
  (Database (<[coll := docs_of d coll ++ [<["_id" := id]> doc]]> (collections d))
            (inserted d + 1)%N,
   id).

(** [$set]: the given fields replace or extend those of the first match. *)
Fixpoint update_first (q : gmap string cond) (fields : gmap string pyval)
    (l : list (gmap string pyval))
  : list (gmap string pyval) * option (gmap string pyval) :=
  match l with
  | [] => ([], None)
  | doc :: l' =>
      if matches q doc then ((fields ∪ doc) :: l', Some (fields ∪ doc))
      else let '(r, res) := update_first q fields l' in (doc :: r, res)
  end.

Fixpoint delete_first (q : gmap string cond) (l : list (gmap string pyval))
  : list (gmap string pyval) * Z :=
  match l with
  | [] => ([], 0)
  | doc :: l' =>
      if matches q doc then (l', 1)
      else let '(r, n) := delete_first q l' in (doc :: r, n)
  end.

End Mongo.

(** ** The [csv] module: [csv.writer] and [csv.DictReader], default dialect *)

Module Csv.

Definition comma : ascii := ",".

(** What the writer puts in a cell: nothing for [None], [str(v)] otherwise. *)
Definition cell (v : pyval) : list ascii :=
  match v with
  | PNone => []
  | _ => chars (str v)
  end.

Definition special (c : ascii) : bool :=
  ascii_eqb c comma || ascii_eqb c dquote || ascii_eqb c carriage_return || ascii_eqb c newline.

Definition quoted (l : list ascii) : list ascii :=
  [dquote] ++ flat_map (fun c => if ascii_eqb c dquote then [dquote; dquote] else [c]) l
           ++ [dquote].

Definition field_text (l : list ascii) : list ascii :=
  if existsb special l then quoted l else l.

Fixpoint join (sep : list ascii) (l : list (list ascii)) : list ascii :=
  match l with
  | [] => []
  | [x] => x
  | x :: l' => x ++ sep ++ join sep l'
  end.

Definition line_terminator : list ascii := [carriage_return; newline].

(** [writer.writerow(row)]: the text appended to the output. *)
Definition writerow (row : list pyval) : list ascii :=
  match map cell row with
  | [[]] => [dquote; dquote] ++ line_terminator
  | cells => join [comma] (map field_text cells) ++ line_terminator
  end.

(** *** Reading *)

Inductive state :=
| START_RECORD | START_FIELD | IN_FIELD
| IN_QUOTED_FIELD | QUOTE_IN_QUOTED_FIELD | EAT_CRNL.

(** The record and the field under construction, both most recent first. *)
Record parser := Parser { st : state; fields : list string; field : list ascii }.

Inductive input := Char (c : ascii) | EOL.

Definition is_eol (i : input) : bool := match i with EOL => true | Char _ => false end.

Definition is_nl (i : input) : bool :=
  match i with
  | Char c => ascii_eqb c newline || ascii_eqb c carriage_return
  | EOL => false
  end.

Definition is_char (x : ascii) (i : input) : bool :=
  match i with Char c => ascii_eqb c x | EOL => false end.

Definition save_field (p : parser) (s : state) : parser :=
  Parser s (str_of (rev (field p)) :: fields p) [].

Definition add_char (p : parser) (i : input) (s : state) : parser :=
  match i with
  | Char c => Parser s (fields p) (c :: field p)
  | EOL => Parser s (fields p) (field p)
  end.

Definition after_line (i : input) : state := if is_eol i then START_RECORD else EAT_CRNL.

Definition start_field (p : parser) (i : input) : parser :=
  if is_nl i || is_eol i then save_field p (after_line i)
  else if is_char dquote i then Parser IN_QUOTED_FIELD (fields p) (field p)
  else if is_char comma i then save_field p START_FIELD
  else add_char p i IN_FIELD.

(** One character through the reader's automaton; [None] is [csv.Error]. *)
Definition process_char (p : parser) (i : input) : option parser :=
  match st p with
  | START_RECORD =>
      if is_eol i then Some p
      else if is_nl i then Some (Parser EAT_CRNL (fields p) (field p))
      else Some (start_field p i)
  | START_FIELD => Some (start_field p i)
  | IN_FIELD =>
      if is_nl i || is_eol i then Some (save_field p (after_line i))
      else if is_char comma i then Some (save_field p START_FIELD)
      else Some (add_char p i IN_FIELD)
  | IN_QUOTED_FIELD =>
      if is_eol i then Some p
      else if is_char dquote i then Some (Parser QUOTE_IN_QUOTED_FIELD (fields p) (field p))
      else Some (add_char p i IN_QUOTED_FIELD)
  | QUOTE_IN_QUOTED_FIELD =>
      if is_char dquote i then Some (add_char p i IN_QUOTED_FIELD)
      else if is_char comma i then Some (save_field p START_FIELD)
      else if is_nl i || is_eol i then Some (save_field p (after_line i))
      else Some (add_char p i IN_FIELD)
  | EAT_CRNL =>
      if is_nl i then Some p
      else if is_eol i then Some (Parser START_RECORD (fields p) (field p))
      else None
  end.

Fixpoint feed (p : parser) (l : list input) : option parser :=
  match l with
  | [] => Some p
  | i :: l' => match process_char p i with Some p' => feed p' l' | None => None end
  end.

(** The lines a [StringIO] yields: each ends after its newline character. *)
Fixpoint lines_from (cur : list ascii) (l : list ascii) : list (list ascii) :=
  match l with
  | [] => match cur with [] => [] | _ => [rev cur] end
  | c :: l' =>
      if ascii_eqb c newline then rev (c :: cur) :: lines_from [] l'
      else lines_from (c :: cur) l'
  end.

Definition splitlines (s : string) : list (list ascii) := lines_from [] (chars s).

Inductive fetched :=
| Record_ (r : list string) (rest : list (list ascii))
| Failed
| Exhausted.

Definition is_start (s : state) : bool :=
  match s with START_RECORD => true | _ => false end.

Definition in_quotes (s : state) : bool :=
  match s with IN_QUOTED_FIELD => true | _ => false end.

(** The reader's [__next__]: lines are consumed until a record is complete. *)
Fixpoint next_record (p : parser) (lines : list (list ascii)) : fetched :=
  match lines with
  | [] =>
      match field p with
      | [] => if in_quotes (st p) then Record_ (rev (fields (save_field p (st p)))) [] else Exhausted
      | _ => Record_ (rev (fields (save_field p (st p)))) []
      end
  | line :: rest =>
      match feed p (map Char line ++ [EOL]) with
      | None => Failed
      | Some p' =>
          if is_start (st p') then Record_ (rev (fields p')) rest
          else next_record p' rest
      end
  end.

Definition fresh : parser := Parser START_RECORD [] [].

(** All the records of the reader, and whether reading ended in an error. *)
Fixpoint records (fuel : nat) (lines : list (list ascii)) : list (list string) * bool :=
  match fuel with
  | O => ([], false)
  | S n =>
      match next_record fresh lines with
      | Record_ r rest => let '(rs, err) := records n rest in (r :: rs, err)
      | Failed => ([], true)
      | Exhausted => ([], false)
      end
  end.

Definition reader (s : string) : list (list string) * bool :=
  let lines := splitlines s in records (S (length lines)) lines.

(** [dict(zip(fieldnames, row))], then [None] under each field name the row
    is too short for. Values beyond the field names are kept under the key
    [None], which no lookup by name reaches: they are dropped here. *)
Fixpoint zip_row (d : gmap string pyval) (names : list string) (row : list string)
  : gmap string pyval :=
  match names, row with
  | k :: names', v :: row' => zip_row (<[k := PStr v]> d) names' row'
  | k :: names', [] => zip_row (<[k := PNone]> d) names' []
  | [], _ => d
  end.

Definition is_blank (r : list string) : bool := match r with [] => true | _ => false end.

(** [csv.DictReader(StringIO(s))]: the first record names the fields, blank
    records after it are skipped. *)
Definition DictReader (s : string) : list (gmap string pyval) * bool :=
  match reader s with
  | ([], err) => ([], err)
  | (names :: rows, err) =>
      (map (zip_row ∅ names) (List.filter (fun r => negb (is_blank r)) rows), err)
  end.


(** *** The reader, character by character

    The same [__next__], followed along the characters instead of the
    lines: the view in which what the writer wrote is read back. *)

(** What the reader returns when its input is exhausted. *)
Definition at_end (p : parser) : fetched :=
  match field p with
  | [] => if in_quotes (st p) then Record_ (rev (fields (save_field p (st p)))) []
          else Exhausted
  | _ => Record_ (rev (fields (save_field p (st p)))) []
  end.

(** The reader's [__next__] over the characters that are left, [p] being
    the parser after the characters of the current line read so far and
    [mid] telling whether there are any. *)
Fixpoint next_chars (mid : bool) (p : parser) (l : list ascii) : fetched :=
  match l with
  | [] =>
      if mid then
        match process_char p EOL with
        | Some p' => if is_start (st p') then Record_ (rev (fields p')) [] else at_end p'
        | None => Failed
        end
      else at_end p
  | c :: l' =>
      match process_char p (Char c) with
      | Some p1 =>
          if ascii_eqb c newline then
            match process_char p1 EOL with
            | Some p2 =>
                if is_start (st p2) then Record_ (rev (fields p2)) (lines_from [] l')
                else next_chars false p2 l'
            | None => Failed
            end
          else next_chars true p1 l'
      | None => Failed
      end
  end.

(** The two characters that end a cell: the comma and the carriage return. *)
Definition is_delim (d : ascii) : bool := ascii_eqb d comma || ascii_eqb d carriage_return.

(** The parser after a field that ended at the delimiter [d]. *)
Definition next_field (d : ascii) (fs : list string) (cell : list ascii) : parser :=
  Parser (if ascii_eqb d comma then START_FIELD else EAT_CRNL) (str_of cell :: fs) [].

(** A quote inside a quoted cell is written twice. *)
Definition doubled (c : ascii) : list ascii :=
  if ascii_eqb c dquote then [dquote; dquote] else [c].

End Csv.

(** ** Handlers as computations: exceptions, the store and its log *)

Module Runtime.

Export Mongo.

(** What a handler can raise. [RequestValidationError] is the framework's
    answer to a request body that fails its schema, [ValidationError] a
    model constructed inside a handler, [OperationFailure] the store
    refusing a query, [CsvError] the CSV reader refusing its input,
    [InvalidDocument] and [OverflowError] the driver refusing to encode a
    document.
    [OutsideModel] is no exception of the program: it marks a query whose
    pattern uses an operator that is not modelled, about which nothing is
    stated. An exception that leaves a handler is answered with status 500. *)
Inductive exn :=
| HTTPException (status_code : Z) (detail : string)
| RequestValidationError (errors : list verror)
| ValidationError (errors : list verror)
| ValueError
| TypeError
| AttributeError
| KeyError
| InvalidId
| CsvError
| OperationFailure
| InvalidDocument
| OverflowError
| OutsideModel.

Inductive result (A : Type) :=
| Return (a : A)
| Raise (e : exn).

Arguments Return {A} a.
Arguments Raise {A} e.

(** The operations a handler asks of the store, as they are issued. *)
Inductive store_op :=
| OpFind (coll : string) (q : gmap string cond)
| OpInsertOne (coll : string) (doc : gmap string pyval)
| OpFindOneAndUpdate (coll : string) (q : gmap string cond) (fields : gmap string pyval)
| OpDeleteOne (coll : string) (q : gmap string cond).

(** What a request runs against: the module-level [db] ([None] when the
    store is not configured), the operations issued so far, the process
    environment and the notifications posted to the webhook. *)
Record world := World {
  db : option database;
  ops : list store_op;
  env : gmap string string;
  outbox : list (string * gmap string pyval)
}.

Definition M (A : Type) : Type := world -> result A * world.

Definition ret {A} (a : A) : M A := fun w => (Return a, w).

Definition raise {A} (e : exn) : M A := fun w => (Raise e, w).

Definition bind {A B} (m : M A) (k : A -> M B) : M B :=
  fun w =>
    match m w with
    | (Return a, w') => k a w'
    | (Raise e, w') => (Raise e, w')
    end.

(** [try: m  except Exception: h] *)
Definition try_except {A} (m : M A) (h : exn -> M A) : M A :=
  fun w =>
    match m w with
    | (Return a, w') => (Return a, w')
    | (Raise e, w') => h e w'
    end.

Notation "'let*' x ':=' m 'in' k" := (bind m (fun x => k))
  (at level 10, x pattern, m at level 100, k at level 200).

Fixpoint map_M {A B} (f : A -> M B) (l : list A) : M (list B) :=
  match l with
  | [] => ret []
  | x :: l' =>
      let* y := f x in
      let* r := map_M f l' in
      ret (y :: r)
  end.

Definition of_option {A} (e : exn) (o : option A) : M A :=
  match o with Some a => ret a | None => raise e end.

Definition lift {A} (r : result A) : M A := fun w => (r, w).

Definition issue (o : store_op) (w : world) : world :=
  World (db w) (ops w ++ [o]) (env w) (outbox w).

Definition put_db (d : database) (w : world) : world :=
  World (Some d) (ops w) (env w) (outbox w).

(** What the store answers to a query before looking at any document. *)
Definition query_error (q : gmap string cond) : option exn :=
  if existsb (fun kc => is_malformed (pattern_of (snd kc))) (map_to_list q)
  then Some OperationFailure
  else if existsb (fun kc => is_unsupported (pattern_of (snd kc))) (map_to_list q)
  then Some OutsideModel
  else None.

(** [db[coll].find(q)], read to the end. With [db] being [None] the
    subscript raises before anything reaches the store. *)
Definition find (coll : string) (q : gmap string cond) : M (list (gmap string pyval)) :=
  fun w =>
    match db w with
    | None => (Raise TypeError, w)
    | Some d =>
        match query_error q with
        | Some e => (Raise e, issue (OpFind coll q) w)
        | None => (Return (find_docs d coll q), issue (OpFind coll q) w)
        end
    end.

(** What the driver raises instead of sending a document that it cannot
    encode. (Of a document that holds both a [Url] and an integer beyond
    64 bits the driver refuses the one it meets first; here it is the
    [Url].) *)
Definition encode_error (doc : gmap string pyval) : option exn :=
  if existsb (fun kv => Bson.holds_url (snd kv)) (map_to_list doc) then Some InvalidDocument
  else if existsb (fun kv => Bson.holds_big_int (snd kv)) (map_to_list doc)
       then Some OverflowError
  else None.

(** [db[coll].insert_one(doc)]: the identifier of the stored document. A
    document that cannot be encoded does not reach the store. *)
Definition insert_one (coll : string) (doc : gmap string pyval) : M pyval :=
  fun w =>
    match db w with
    | None => (Raise TypeError, w)
    | Some d =>
        match encode_error doc with
        | Some e => (Raise e, w)
        | None =>
            let '(d', id) := insert_doc d coll doc in
            (Return id, put_db d' (issue (OpInsertOne coll doc) w))
        end
    end.

(** [db[coll].find_one_and_update(q, {"$set": fields}, return_document=True)] *)
Definition find_one_and_update (coll : string) (q : gmap string cond)
    (fields : gmap string pyval) : M (option (gmap string pyval)) :=
  fun w =>
    match db w with
    | None => (Raise TypeError, w)
    | Some d =>
        match encode_error fields with
        | Some e => (Raise e, w)
        | None =>
            let '(l, res) := update_first q fields (docs_of d coll) in
            (Return res,
             put_db (match res with Some _ => set_docs d coll l | None => d end)
                    (issue (OpFindOneAndUpdate coll q fields) w))
        end
    end.

(** [db[coll].delete_one(q).deleted_count] *)
Definition delete_one (coll : string) (q : gmap string cond) : M Z :=
  fun w =>
    match db w with
    | None => (Raise TypeError, w)
    | Some d =>
        let '(l, n) := delete_first q (docs_of d coll) in
        (Return n,
         put_db (if n =? 0 then d else set_docs d coll l) (issue (OpDeleteOne coll q) w))
    end.

End Runtime.

(** ** main.py *)

Module Main.

Import Runtime.

Definition ObjectIdStr_validate (v : pyval) : option pyval :=
  match v with
  | PObjectId _ => Some (PStr (str v))
  | PStr s => if Bson.is_valid s then Some (PStr s) else None
  | _ => None
  end.

(** [ObjectIdStr] declares [validate] through [__get_validators__]. *)
Definition ObjectIdStr : ftype := TLegacy ObjectIdStr_validate.

Definition ProductOut : model :=
  [ Field "id" ObjectIdStr None;
    Field "name" TStr None;
    Field "category" TStr None;
    Field "price" (TFloat None) None;
    Field "availability" TStr None;
    Field "sku" (TOptional TStr) (Some PNone);
    Field "care" (TOptional TStr) (Some PNone);
    Field "image" (TOptional TStr) (Some PNone) ].

(** Constructing a model inside a handler: a failed validation raises. *)
Definition construct (m : model) (kwargs : gmap string pyval) : M (gmap string pyval) :=
  lift match validate_model m kwargs with
       | Valid fields => Return fields
       | Invalid errors => Raise (ValidationError errors)
       | Aborted => Raise TypeError
       end.

Definition from_mongo (doc : gmap string pyval) : M (gmap string pyval) :=
  construct ProductOut
    (<["id" := PStr (str (get doc "_id"))]>
     (<["name" := get doc "name"]>
     (<["category" := get doc "category"]>
     (<["price" := get doc "price"]>
     (<["availability" := get doc "availability"]>
     (<["sku" := get doc "sku"]>
     (<["care" := get doc "care"]>
     (<["image" := if truthy (get doc "image") then PStr (str (get doc "image")) else PNone]>
      ∅)))))))).

Definition COLL_PRODUCTS : string := "product".
Definition COLL_ORDERS : string := "order".
Definition COLL_CONTACT : string := "contact".
Definition COLL_GALLERY : string := "gallery".
Definition COLL_POSTS : string := "post".

Definition not_configured : exn := HTTPException 500 "Database not configured".
Definition invalid_id : exn := HTTPException 400 "Invalid id".
Definition not_found : exn := HTTPException 404 "Not found".

(** [if db is None: raise HTTPException(status_code=500, ...)] *)
Definition require_db : M unit :=
  fun w =>
    match db w with
    | None => (Raise not_configured, w)
    | Some _ => (Return tt, w)
    end.

(** An optional query parameter as the value the handler sees. *)
Definition param (o : option string) : pyval :=
  match o with Some s => PStr s | None => PNone end.

Definition list_products (category availability q : option string)
  : M (list (gmap string pyval)) :=
  let* _ := require_db in
  let query : gmap string cond := ∅ in
  let query :=
    if truthy (param category) then <["category" := CEq (param category)]> query else query in
  let query :=
    if truthy (param availability) then <["availability" := CEq (param availability)]> query
    else query in
  let query :=
    if truthy (param q) then <["name" := CRegex (str (param q)) "i"]> query else query in
  let* docs := find COLL_PRODUCTS query in
  map_M from_mongo (sort "name" 1 docs).

(** Modelled from the spec: [create_document] of the [database] module,
    which is not among the sources. With the store unavailable it gives the
    service-unavailable signal before any store operation; otherwise it
    inserts the entity's fields into the collection and returns the new
    identifier as a string. *)
Definition create_document (coll : string) (data : gmap string pyval) : M string :=
  let* _ := require_db in
  let* id := insert_one coll data in
  ret (str id).

(** Modelled from the spec: [get_documents] of the [database] module, which
    is not among the sources: all the documents of the collection. *)
Definition get_documents (coll : string) : M (list (gmap string pyval)) :=
  find coll ∅.

Definition create_product (product : gmap string pyval) : M string :=
  create_document COLL_PRODUCTS product.

Definition by_id (o : oid) : gmap string cond := {[ "_id" := CEq (PObjectId o) ]}.

Definition update_product (product_id : string) (product : gmap string pyval)
  : M (gmap string pyval) :=
  let* _ := require_db in
  if negb (Bson.is_valid product_id) then raise invalid_id
  else
    let* o := of_option InvalidId (Bson.ObjectId product_id) in
    let* result := find_one_and_update COLL_PRODUCTS (by_id o) product in
    match result with
    | Some doc =>
        if bool_decide (doc = ∅) then raise not_found else from_mongo doc
    | None => raise not_found
    end.

Definition delete_product (product_id : string) : M (gmap string pyval) :=
  let* _ := require_db in
  if negb (Bson.is_valid product_id) then raise invalid_id
  else
    let* o := of_option InvalidId (Bson.ObjectId product_id) in
    let* deleted_count := delete_one COLL_PRODUCTS (by_id o) in
    if deleted_count =? 0 then raise not_found
    else ret {[ "ok" := PBool true ]}.

Record StreamingResponse := {
  body : string;
  media_type : string;
  content_disposition : string
}.

Definition csv_header : list pyval :=
  map PStr ["name"; "category"; "price"; "availability"; "sku"; "care"; "image"].

(** One [writer.writerow([...])] of the export loop. *)
Definition export_row (d : gmap string pyval) : M (list ascii) :=
  let* care :=
    match por (get_or d "care" (PStr "")) (PStr "") with
    | PStr s => ret (PStr (str_of (replace_char newline [" "%char] (chars s))))
    | _ => raise AttributeError
    end in
  ret (Csv.writerow
         [ get_or d "name" (PStr ""); get_or d "category" (PStr "");
           get_or d "price" (PStr ""); get_or d "availability" (PStr "");
           get_or d "sku" (PStr ""); care; get_or d "image" (PStr "") ]).

Definition export_products_csv : M StreamingResponse :=
  let* _ := require_db in
  let* docs := find COLL_PRODUCTS ∅ in
  let* rows := map_M export_row docs in
  ret {| body := str_of (Csv.writerow csv_header ++ concat rows);
         media_type := "text/csv";
         content_disposition := "attachment; filename=products.csv" |}.

Definition gallery_view (d : gmap string pyval) : gmap string pyval :=
  let d :=
    if truthy (get d "_id") then <["id" := PStr (str (get d "_id"))]> (delete "_id" d)
    else <["id" := PNone]> d in
  match d !! "alt" with
  | Some _ => d
  | None => <["alt" := get_or d "title" (PStr "Fotografija")]> d
  end.

Definition list_gallery : M (list (gmap string pyval)) :=
  let* _ := require_db in
  let* docs := get_documents COLL_GALLERY in
  ret (map gallery_view docs).

Definition post_view (d : gmap string pyval) : M (gmap string pyval) :=
  let* id := of_option KeyError (d !! "_id") in
  ret (<["id" := PStr (str id)]> (delete "_id" d)).

Definition list_posts : M (list (gmap string pyval)) :=
  let* _ := require_db in
  let* docs := find COLL_POSTS {[ "published" := CEq (PBool true) ]} in
  map_M post_view (sort "_id" (-1) docs).

(** The best-effort notification after an order or a contact message:
    [requests.post(webhook_url, json={"type": kind, "id": id, **fields})]
    when [WEBHOOK_URL] is set; whatever it raises is discarded. *)
Definition notify (kind id : string) (fields : gmap string pyval) : M unit :=
  fun w =>
    match env w !! "WEBHOOK_URL" with
    | Some url =>
        if truthy (PStr url) then
          (Return tt,
           World (db w) (ops w) (env w)
                 (outbox w ++ [(url, fields ∪ {[ "type" := PStr kind; "id" := PStr id ]})]))
        else (Return tt, w)
    | None => (Return tt, w)
    end.

Definition create_order (order : gmap string pyval) : M (gmap string pyval) :=
  let* oid := create_document COLL_ORDERS order in
  let* _ := notify "order" oid order in
  ret {[ "id" := PStr oid ]}.

Definition create_contact (msg : gmap string pyval) : M (gmap string pyval) :=
  let* cid := create_document COLL_CONTACT msg in
  let* _ := notify "contact" cid msg in
  ret {[ "id" := PStr cid ]}.

Section Routes.

Variable HttpUrl : pyval -> option string.
Variable EmailStr : pyval -> option pyval.
Variable date : pyval -> option pyval.

Definition ProductSchema : model := Schemas.Product HttpUrl.
Definition OrderSchema : model := Schemas.Order HttpUrl EmailStr date.
Definition ContactSchema : model := Schemas.Contact EmailStr.

(** The keyword arguments the importer builds from one CSV row. *)
Definition row_kwargs (row : gmap string pyval) (price : spec_float) : gmap string pyval :=
  <["name" := por (get row "name") (get row "naziv")]>
  (<["category" := por (get row "category") (get row "kategorija")]>
  (<["price" := PFloat price]>
  (<["availability" :=
       por (por (get row "availability") (get row "dostupnost")) (PStr "na stanju")]>
  (<["sku" := get row "sku"]>
  (<["care" := por (get row "care") (get row "njega")]>
  (<["image" := por (get row "image") (get row "slika")]> ∅)))))).

(** [float(row.get("price") or row.get("cijena") or 0)] *)
Definition row_price (row : gmap string pyval) : option spec_float :=
  float (por (por (get row "price") (get row "cijena")) (PInt 0)).

(** [ProductSchema(name=..., ..., image=...)] for one CSV row: the product, or
    the [ValueError] of [float] or the validation error of the schema. *)
Definition row_product (row : gmap string pyval) : result (gmap string pyval) :=
  match row_price row with
  | Some price =>
      match validate_model ProductSchema (row_kwargs row price) with
      | Valid fields => Return fields
      | Invalid errors => Raise (ValidationError errors)
      | Aborted => Raise TypeError
      end
  | None => Raise ValueError
  end.

(** The body of the import loop: [inserted] after the row. *)
Definition import_row (row : gmap string pyval) (inserted : Z) : M Z :=
  try_except
    (let* doc := lift (row_product row) in
     let* _ := insert_one COLL_PRODUCTS doc in
     ret (inserted + 1))
    (fun _ => ret inserted).

Fixpoint import_rows (rows : list (gmap string pyval)) (inserted : Z) : M Z :=
  match rows with
  | [] => ret inserted
  | row :: rows' =>
      let* inserted' := import_row row inserted in
      import_rows rows' inserted'
  end.

(** [content] is the uploaded file, decoded. An error of the CSV reader
    ends the loop from outside the [try]. *)
Definition import_products_csv (content : string) : M (gmap string pyval) :=
  let* _ := require_db in
  let '(rows, failed) := Csv.DictReader content in
  let* inserted := import_rows rows 0 in
  if failed then raise CsvError
  else ret {[ "inserted" := PInt inserted ]}.

(** A route with a request body: the framework validates the body against
    the handler's model before the handler runs. *)
Definition with_body {A} (m : model) (raw : gmap string pyval)
    (handler : gmap string pyval -> M A) : M A :=
  match validate_model m raw with
  | Valid fields => handler fields
  | Invalid errors => raise (RequestValidationError errors)
  | Aborted => raise TypeError
  end.

Definition post_products (raw : gmap string pyval) : M string :=
  with_body ProductSchema raw create_product.

Definition put_products (product_id : string) (raw : gmap string pyval)
  : M (gmap string pyval) :=
  with_body ProductSchema raw (update_product product_id).

Definition post_orders (raw : gmap string pyval) : M (gmap string pyval) :=
  with_body OrderSchema raw create_order.

Definition post_contact (raw : gmap string pyval) : M (gmap string pyval) :=
  with_body ContactSchema raw create_contact.

End Routes.

End Main.

(** ** Vocabulary of the specification *)

Module Spec.

Import Runtime Main.

Definition is_str (x : option pyval) : bool :=
  match x with Some (PStr _) => true | _ => false end.

Definition is_opt_str (x : option pyval) : bool :=
  match x with None | Some PNone | Some (PStr _) => true | _ => false end.

Definition is_float (x : option pyval) : bool :=
  match x with Some (PFloat _) => true | _ => false end.

Definition is_oid (x : option pyval) : bool :=
  match x with
  | Some (PObjectId o) => (length o =? 12)%nat && forallb (fun b => (b <? 256)%N) o
  | _ => false
  end.

(** A stored product: a document with a store identifier, the four
    mandatory product fields and the three optional ones, typed as the
    product schema leaves them. *)
Definition is_product (d : gmap string pyval) : bool :=
  is_oid (d !! "_id") && is_str (d !! "name") && is_str (d !! "category")
  && is_float (d !! "price") && is_str (d !! "availability")
  && is_opt_str (d !! "sku") && is_opt_str (d !! "care") && is_opt_str (d !! "image").

Definition products (d : database) : list (gmap string pyval) := docs_of d COLL_PRODUCTS.

(** [q] occurs in [text], letter case aside. *)
Definition contains_ci (text q : string) : Prop :=
  exists pre post, lower (chars text) = pre ++ lower (chars q) ++ post.

Definition name_contains (q : string) (d : gmap string pyval) : Prop :=
  exists n, d !! "name" = Some (PStr n) /\ contains_ci n q.

(** No character of [q] is an operator of the pattern language. *)
Definition plain (q : string) : bool :=
  forallb (fun c => negb (Regex.is_meta c)) (chars q).

(** The pattern language as far as it is modelled, and accepted by the store. *)
Definition compiles (q : string) : bool :=
  match Regex.compile (chars q) with Regex.Pattern _ => true | _ => false end.

Definition field_is (key : string) (v : option string) (d : gmap string pyval) : bool :=
  match v with
  | Some s => String.eqb s "" || match d !! key with Some (PStr x) => String.eqb x s | _ => false end
  | None => true
  end.

Definition name_matches (q : option string) (d : gmap string pyval) : bool :=
  match q with
  | Some s =>
      String.eqb s ""
      || match Regex.compile (chars s), d !! "name" with
         | Regex.Pattern atoms, Some (PStr n) => Regex.search true atoms (chars n)
         | _, _ => false
         end
  | None => true
  end.

(** What the listing accepts for [q]: nothing, the empty string, or a
    pattern that compiles. *)
Definition accepted (q : option string) : bool :=
  match q with
  | Some s => String.eqb s "" || compiles s
  | None => true
  end.

(** The conjunction of the filters that were provided. *)
Definition selected (category availability q : option string) (d : gmap string pyval) : bool :=
  field_is "category" category d && field_is "availability" availability d
  && name_matches q d.

(** The product a CSV row gives, if it gives one. *)
Definition product_of_row (HttpUrl : pyval -> option string) (row : gmap string pyval)
  : option (gmap string pyval) :=
  match row_product HttpUrl row with
  | Return doc => Some doc
  | Raise _ => None
  end.

(** The products of the rows that give one, in the order of the rows. *)
Definition valid_products (HttpUrl : pyval -> option string)
    (rows : list (gmap string pyval)) : list (gmap string pyval) :=
  omap (product_of_row HttpUrl) rows.

(** A string or [None], and there. *)
Definition is_present_opt_str (x : option pyval) : bool :=
  match x with Some PNone | Some (PStr _) => true | _ => false end.

(** A document that the driver can encode for the store. *)
Definition storable (doc : gmap string pyval) : bool :=
  match encode_error doc with None => true | Some _ => false end.

(** The store after inserting the products one after the other. *)
Definition insert_all (d : database) (docs : list (gmap string pyval)) : database :=
  fold_left (fun d doc => fst (insert_doc d COLL_PRODUCTS doc)) docs d.

(** The documents as stored, the first under the [n]-th identifier. *)
Fixpoint stored_from (n : N) (docs : list (gmap string pyval)) : list (gmap string pyval) :=
  match docs with
  | [] => []
  | doc :: docs' => <["_id" := PObjectId (Bson.new_oid n)]> doc :: stored_from (n + 1) docs'
  end.

(** The text of a field that holds a string, nothing otherwise. *)
Definition text (x : option pyval) : list ascii :=
  match x with Some (PStr s) => chars s | _ => [] end.

Definition number_text (x : option pyval) : list ascii :=
  match x with Some (PFloat f) => chars (float_repr f) | _ => [] end.

(** Each newline character becomes one space. *)
Definition spaces_for_newlines (l : list ascii) : list ascii :=
  map (fun c => if ascii_eqb c newline then " "%char else c) l.

(** The seven cells of a product's export row, as the specification words
    them: the fields in the order of the header, the care text with its
    newlines collapsed, nothing for an optional field that is missing. *)
Definition export_cells (d : gmap string pyval) : list (list ascii) :=
  [ text (d !! "name"); text (d !! "category"); number_text (d !! "price");
    text (d !! "availability"); text (d !! "sku");
    spaces_for_newlines (text (d !! "care")); text (d !! "image") ].

(** One record of CSV text: the cells, quoted where needed, between commas. *)
Definition csv_record (cells : list (list ascii)) : list ascii :=
  Csv.join [Csv.comma] (map Csv.field_text cells) ++ [carriage_return; newline].

Definition header_cells : list (list ascii) :=
  map chars ["name"; "category"; "price"; "availability"; "sku"; "care"; "image"].

(** A row of cells that is not the single empty cell. *)
Definition proper_row (cells : list (list ascii)) : Prop :=
  cells <> [] /\ cells <> [[]].

Definition header_line : list ascii :=
  chars "name,category,price,availability,sku,care,image" ++ [carriage_return; newline].

Definition name_le (a b : gmap string pyval) : Prop :=
  exists x y, a !! "name" = Some (PStr x) /\ b !! "name" = Some (PStr y)
              /\ compare_chars (chars x) (chars y) <> Gt.

End Spec.

(** ** Sample data

    Stand-ins for the three library validators and a few requests, used to
    run the handlers on concrete inputs. *)

Module Examples.

Import Runtime Main.

Definition sample_HttpUrl (v : pyval) : option string :=
  match v with
  | PStr s => if String.prefix "http://" s || String.prefix "https://" s then Some s else None
  | PUrl u => Some u
  | _ => None
  end.

Definition sample_EmailStr (v : pyval) : option pyval :=
  match v with
  | PStr s => if has_char "@" (chars s) then Some (PStr s) else None
  | _ => None
  end.

Definition sample_date (v : pyval) : option pyval :=
  match v with
  | PStr s => if (length (chars s) =? 10)%nat then Some (PStr s) else None
  | _ => None
  end.

(** No store configured. *)
Definition w_off : world := World None [] ∅ [].

(** A configured store with nothing in it. *)
Definition w_empty : world := World (Some (Database ∅ 0)) [] ∅ [].

Definition lines (l : list string) : string :=
  str_of (flat_map (fun s => chars s ++ [newline]) l).

(** An order with every field but [consent]. *)
Definition order_without_consent : gmap string pyval :=
  <["full_name" := PStr "Ana Horvat"]>
  (<["phone" := PStr "091 555 123"]>
  (<["email" := PStr "ana@example.hr"]>
  (<["delivery" := PBool true]>
  (<["budget_eur" := PInt 40]> ∅)))).

Definition contact_without_consent : gmap string pyval :=
  <["full_name" := PStr "Ana Horvat"]> (<["message" := PStr "Imate li lavandu?"]> ∅).

(** A product body whose category differs from an allowed one by letter case. *)
Definition product_wrong_case : gmap string pyval :=
  <["name" := PStr "Lavanda"]> (<["category" := PStr "Trajnica"]> (<["price" := PInt 4]> ∅)).

Definition product_negative_price : gmap string pyval :=
  <["name" := PStr "Lavanda"]> (<["category" := PStr "trajnica"]> (<["price" := PInt (-4)]> ∅)).

(** A row that uses the localized column names and has neither a price
    nor an availability. *)
Definition row_localized : gmap string pyval :=
  <["naziv" := PStr "Ruzmarin"]>
  (<["kategorija" := PStr "zacinsko bilje"]>
  (<["njega" := PStr "Sunce, malo vode"]>
  (<["cijena" := PStr ""]> ∅))).

(** An upload of four data rows: the second has no category, the third a
    price that is not a number. *)
Definition sample_csv : string :=
  lines [ "name,category,price,availability,sku,care,image";
          "Ruza,grmovi,12.5,,R1,voli sunce,http://x.hr/ruza.webp";
          "Bez kategorije,,1,,,,";
          "Aloe,sobne biljke,abc,,,,";
          "Aloe,sobne biljke,,rasprodano,,," ].

(** An upload of one data row, a valid product with an image. *)
Definition csv_with_image : string :=
  lines [ "name,category,price,image";
          "Ruza,grmovi,12.5,http://x.hr/ruza.webp" ].

Definition stored (n : N) (fields : list (string * pyval)) : gmap string pyval :=
  <["_id" := PObjectId (Bson.new_oid n)]> (list_to_map fields).

(** A configured store holding three products. The care text of the
    first runs over two lines; the second has no optional field. *)
Definition catalogue : database :=
  Database
    {[ COLL_PRODUCTS :=
         [ stored 0 [ ("name", PStr "Ruza"); ("category", PStr "grmovi");
                      ("price", PFloat (float_of_Z 12)); ("availability", PStr "na stanju");
                      ("sku", PStr "R-1");
                      ("care", PStr (lines ["Puno sunca"; "Malo vode"]));
                      ("image", PStr "http://x.hr/ruza.webp") ];
           stored 1 [ ("name", PStr "Aloe"); ("category", PStr "sobne biljke");
                      ("price", PFloat (float_of_Z 0)); ("availability", PStr "rasprodano") ];
           stored 2 [ ("name", PStr "a.b"); ("category", PStr "sobne biljke");
                      ("price", PFloat (float_of_Z 3)); ("availability", PStr "na stanju");
                      ("sku", PNone); ("care", PNone); ("image", PNone) ] ] ]}
    3.

Definition w_catalogue : world := World (Some catalogue) [] ∅ [].

(** A name with a backslash in it, and a store whose one product has it. *)
Definition odd_name : string := str_of ["a"%char; backslash; "."%char].

Definition odd_catalogue : database :=
  Database
    {[ COLL_PRODUCTS :=
         [ stored 0 [ ("name", PStr odd_name); ("category", PStr "grmovi");
                      ("price", PFloat (float_of_Z 1)); ("availability", PStr "na stanju") ] ] ]}
    1.

Definition w_odd : world := World (Some odd_catalogue) [] ∅ [].

End Examples.

(** ** Properties *)

Import Runtime Main Spec.

Section Handlers.

Variable HttpUrl : pyval -> option string.
Variable EmailStr : pyval -> option pyval.
Variable date : pyval -> option pyval.

Lemma bind_raise {A B} (m : M A) (k : A -> M B) w e w' :
  m w = (Raise e, w') -> bind m k w = (Raise e, w').
Proof. intros H. unfold bind. now rewrite H. Qed.

Lemma bind_return {A B} (m : M A) (k : A -> M B) w a w' :
  m w = (Return a, w') -> bind m k w = k a w'.
Proof. intros H. unfold bind. now rewrite H. Qed.

Lemma require_db_None w : db w = None -> require_db w = (Raise not_configured, w).
Proof. intros H. unfold require_db. now rewrite H. Qed.

Lemma require_db_Some w d : db w = Some d -> require_db w = (Return tt, w).
Proof. intros H. unfold require_db. now rewrite H. Qed.

(** C10: a filter given as the empty string is the filter left out. *)
Theorem empty_filter_is_no_filter (category availability q : option string) (w : world) :
  list_products (Some "") availability q w = list_products None availability q w
  /\ list_products category (Some "") q w = list_products category None q w
  /\ list_products category availability (Some "") w = list_products category availability None w.
Proof. repeat split; reflexivity. Qed.

(** C2: with the store unavailable every product, CSV, gallery and post
    handler answers with the service-unavailable signal and leaves the
    world, the log of store operations included, as it was. *)
Theorem unavailable_store_signalled (w : world) :
  db w = None ->
  (forall c a q, list_products c a q w = (Raise not_configured, w))
  /\ (forall product, create_product product w = (Raise not_configured, w))
  /\ (forall id product, update_product id product w = (Raise not_configured, w))
  /\ (forall id, delete_product id w = (Raise not_configured, w))
  /\ (forall content, import_products_csv HttpUrl content w = (Raise not_configured, w))
  /\ export_products_csv w = (Raise not_configured, w)
  /\ list_gallery w = (Raise not_configured, w)
  /\ list_posts w = (Raise not_configured, w).
Proof.
  intros H. pose proof (require_db_None w H) as R.
  repeat split; intros;
    first [ apply bind_raise, R
          | unfold create_product, create_document; apply bind_raise, R ].
Qed.

End Handlers.

Import Examples.

Lemma unavailable_store_witness :
  (forall c a q, list_products c a q w_off = (Raise not_configured, w_off))
  /\ (forall product, create_product product w_off = (Raise not_configured, w_off))
  /\ (forall id product, update_product id product w_off = (Raise not_configured, w_off))
  /\ (forall id, delete_product id w_off = (Raise not_configured, w_off))
  /\ (forall content,
        import_products_csv sample_HttpUrl content w_off = (Raise not_configured, w_off))
  /\ export_products_csv w_off = (Raise not_configured, w_off)
  /\ list_gallery w_off = (Raise not_configured, w_off)
  /\ list_posts w_off = (Raise not_configured, w_off).
Proof. exact (unavailable_store_signalled sample_HttpUrl w_off eq_refl). Defined.

(** ** Identifiers *)

Lemma valid_id_length (id : string) :
  Bson.is_valid id = true -> length (chars id) = 24%nat.
Proof.
  unfold Bson.is_valid, Bson.ObjectId.
  destruct (String.eqb id ""); [discriminate |].
  destruct (length (chars id) =? 24)%nat eqn:E; [| discriminate].
  intros _. now apply Nat.eqb_eq.
Qed.

Lemma fromhex_chars (l : list ascii) (o : oid) :
  Bson.fromhex l = Some o ->
  forall c, In c l -> Bson.is_hex c = true \/ Bson.ascii_space c = true.
Proof.
  revert o. induction l as [l IH] using (induction_ltof1 _ (@length ascii)).
  unfold ltof in IH. intros o H c Hc.
  destruct l as [| a l]; [destruct Hc |].
  simpl in H. destruct (Bson.ascii_space a) eqn:Ea.
  - destruct Hc as [-> | Hc]; [now right |].
    eapply (IH l); [simpl; lia | exact H | exact Hc].
  - destruct (Bson.hex_val a) as [hi |] eqn:Ha; [| discriminate].
    destruct l as [| b l]; [discriminate |].
    destruct (Bson.hex_val b) as [lo |] eqn:Hb; [| discriminate].
    destruct (Bson.fromhex l) as [o' |] eqn:Hl; [| discriminate].
    destruct Hc as [-> | [-> | Hc]].
    + left. unfold Bson.is_hex. now rewrite Ha.
    + left. unfold Bson.is_hex. now rewrite Hb.
    + eapply (IH l); [simpl; lia | exact Hl | exact Hc].
Qed.

(** A string that is not 24 characters long, or that holds a character
    which is neither a hex digit nor whitespace, is not a valid identifier. *)
Lemma malformed_id_invalid (id : string) :
  length (chars id) <> 24%nat
  \/ (exists c, In c (chars id) /\ Bson.is_hex c = false /\ Bson.ascii_space c = false) ->
  Bson.is_valid id = false.
Proof.
  intros H. destruct (Bson.is_valid id) eqn:V; [| reflexivity]. exfalso.
  destruct H as [H | (c & Hc & Hh & Hs)].
  - now apply H, valid_id_length.
  - unfold Bson.is_valid, Bson.ObjectId in V.
    destruct (String.eqb id ""); [discriminate |].
    destruct (length (chars id) =? 24)%nat; [| discriminate].
    destruct (Bson.fromhex (chars id)) as [o |] eqn:F; [| discriminate].
    destruct (fromhex_chars _ _ F c Hc); congruence.
Qed.

(** C8, as amended: with the store available, an identifier the
    identifier check rejects (such is every string that is not 24
    characters long or holds a character that is neither a hex digit nor
    whitespace) makes update and delete answer bad-request, and the world
    (stored data and log of store operations) is unchanged. *)
Theorem malformed_id_rejected (w : world) (d : database) (id : string)
    (product : gmap string pyval) :
  db w = Some d ->
  Bson.is_valid id = false
  \/ length (chars id) <> 24%nat
  \/ (exists c, In c (chars id) /\ Bson.is_hex c = false /\ Bson.ascii_space c = false) ->
  update_product id product w = (Raise invalid_id, w)
  /\ delete_product id w = (Raise invalid_id, w).
Proof.
  intros Hd Hid. pose proof (require_db_Some w d Hd) as R.
  assert (V : Bson.is_valid id = false).
  { destruct Hid as [V | Hid]; [exact V | now apply malformed_id_invalid]. }
  unfold update_product, delete_product.
  rewrite !(bind_return _ _ _ _ _ R), V. now split.
Qed.

Lemma malformed_id_rejected_witness :
  update_product "abc" ∅ w_empty = (Raise invalid_id, w_empty)
  /\ delete_product "abc" w_empty = (Raise invalid_id, w_empty).
Proof.
  apply (malformed_id_rejected w_empty (Database ∅ 0) "abc" ∅); [reflexivity |].
  left. reflexivity.
Defined.

(** The identifier check is the one of the store's driver: it reads the 24
    characters as hex digits two by two and skips whitespace, so that 24
    characters of digit pairs and blanks pass it and reach the store. *)
Example spaced_id_reaches_the_store :
  Bson.is_valid "00 00 00 00 00 00 00 00 " = true
  /\ Bson.ObjectId "00 00 00 00 00 00 00 00 " = Some [0; 0; 0; 0; 0; 0; 0; 0]%N
  /\ delete_product "00 00 00 00 00 00 00 00 " w_empty
     = (Raise not_found,
        issue (OpDeleteOne COLL_PRODUCTS (by_id [0; 0; 0; 0; 0; 0; 0; 0]%N)) w_empty).
Proof. repeat split; vm_compute; reflexivity. Qed.

(** C8, as stated, fails when the store is unavailable: the handlers check
    the store first and answer with the service-unavailable signal. *)
Lemma malformed_id_unavailable_store :
  Bson.is_valid "abc" = false
  /\ update_product "abc" ∅ w_off = (Raise (HTTPException 500 "Database not configured"), w_off)
  /\ delete_product "abc" w_off = (Raise (HTTPException 500 "Database not configured"), w_off)
  /\ invalid_id = HTTPException 400 "Invalid id".
Proof. repeat split; reflexivity. Qed.

(** ** Validation *)

Lemma validate_fields_missing (fs : model) (raw : gmap string pyval) (f : field) :
  In f fs -> fdefault f = None -> raw !! fname f = None ->
  In (fname f, "missing") (fst (validate_fields fs raw)).
Proof.
  intros Hin Hd Hr. induction fs as [| g fs IH]; [destruct Hin |].
  simpl. destruct (validate_fields fs raw) as [errs out] eqn:E.
  destruct Hin as [-> | Hin].
  - rewrite Hr, Hd. now left.
  - specialize (IH Hin). simpl in IH.
    destruct (raw !! fname g) as [v |].
    + destruct (validate_value (annotation g) v); simpl; auto.
    + destruct (fdefault g); simpl; auto.
Qed.

Lemma validate_fields_error (fs : model) (raw : gmap string pyval) (f : field)
    (v : pyval) (e : string) :
  In f fs -> raw !! fname f = Some v -> validate_value (annotation f) v = inl e ->
  In (fname f, e) (fst (validate_fields fs raw)).
Proof.
  intros Hin Hr He. induction fs as [| g fs IH]; [destruct Hin |].
  simpl. destruct (validate_fields fs raw) as [errs out] eqn:E.
  destruct Hin as [-> | Hin].
  - rewrite Hr, He. now left.
  - specialize (IH Hin). simpl in IH.
    destruct (raw !! fname g) as [u |].
    + destruct (validate_value (annotation g) u); simpl; auto.
    + destruct (fdefault g); simpl; auto.
Qed.

Lemma crashes_legacy_free (t : ftype) (v : pyval) :
  legacy_free t = true -> crashes t v = false.
Proof.
  revert v. induction t as [| | ge | choices | t IH | t IH | err f | f]; intros v H;
    try reflexivity; try discriminate H.
  - destruct v; try reflexivity; now apply IH.
  - destruct v as [| | | | | | l |]; try reflexivity.
    cbn [crashes]. induction l as [| x l IHl]; [reflexivity |].
    cbn [existsb]. now rewrite (IH x H), IHl.
Qed.

Lemma model_never_crashes (m : model) (raw : gmap string pyval) :
  forallb (fun f => legacy_free (annotation f)) m = true -> model_crashes m raw = false.
Proof.
  unfold model_crashes. induction m as [| f m IH]; [reflexivity |].
  cbn [forallb existsb]. intros H. apply andb_prop in H as [Hf Hm].
  rewrite (IH Hm), orb_false_r.
  destruct (raw !! fname f); [now apply crashes_legacy_free | reflexivity].
Qed.

Lemma validate_model_invalid (m : model) (raw : gmap string pyval) (x : verror) :
  In x (fst (validate_fields m raw)) ->
  forallb (fun f => legacy_free (annotation f)) m = true ->
  validate_model m raw = Invalid (fst (validate_fields m raw)).
Proof.
  intros Hx L. unfold validate_model. rewrite (model_never_crashes m raw L).
  destruct (validate_fields m raw) as [[| y errs] out]; simpl in *.
  - destruct Hx.
  - reflexivity.
Qed.

Lemma with_body_invalid {A} (m : model) (raw : gmap string pyval)
    (handler : gmap string pyval -> M A) (errs : list verror) (w : world) :
  validate_model m raw = Invalid errs ->
  with_body m raw handler w = (Raise (RequestValidationError errs), w).
Proof. intros H. unfold with_body. now rewrite H. Qed.

Section Validation.

Variable HttpUrl : pyval -> option string.
Variable EmailStr : pyval -> option pyval.
Variable date : pyval -> option pyval.

(** C7: an order or a contact message without [consent] fails validation,
    whatever its other fields are; the field has no default, and the route
    answers with the validation error without touching the world. *)
Theorem consent_is_mandatory (raw : gmap string pyval) :
  raw !! "consent" = None ->
  (exists errs,
      validate_model (OrderSchema HttpUrl EmailStr date) raw = Invalid errs
      /\ In ("consent", "missing") errs
      /\ forall w, post_orders HttpUrl EmailStr date raw w
                   = (Raise (RequestValidationError errs), w))
  /\ (exists errs,
      validate_model (ContactSchema EmailStr) raw = Invalid errs
      /\ In ("consent", "missing") errs
      /\ forall w, post_contact EmailStr raw w = (Raise (RequestValidationError errs), w))
  /\ In (Field "consent" TBool None) (OrderSchema HttpUrl EmailStr date)
  /\ In (Field "consent" TBool None) (ContactSchema EmailStr).
Proof.
  intros H.
  assert (HO : In (Field "consent" TBool None) (OrderSchema HttpUrl EmailStr date))
    by (unfold OrderSchema, Schemas.Order; simpl; tauto).
  assert (HC : In (Field "consent" TBool None) (ContactSchema EmailStr))
    by (unfold ContactSchema, Schemas.Contact; simpl; tauto).
  pose proof (validate_fields_missing _ raw _ HO eq_refl H) as EO.
  pose proof (validate_fields_missing _ raw _ HC eq_refl H) as EC.
  repeat split; try assumption.
  - eexists. split; [exact (validate_model_invalid _ _ _ EO eq_refl) |]. split; [exact EO |].
    intros w. apply with_body_invalid, (validate_model_invalid _ _ _ EO eq_refl).
  - eexists. split; [exact (validate_model_invalid _ _ _ EC eq_refl) |]. split; [exact EC |].
    intros w. apply with_body_invalid, (validate_model_invalid _ _ _ EC eq_refl).
Qed.

Lemma negative_not_ge_zero (f : spec_float) :
  fltb f fzero = true -> fleb (float_of_Z 0) f = false.
Proof.
  destruct f as [s | s | | s m e]; try destruct s; vm_compute; congruence.
Qed.

Lemma negative_price_error (v : pyval) (f : spec_float) :
  float v = Some f -> fltb f fzero = true ->
  exists e, validate_value (TFloat (Some 0)) v = inl e.
Proof.
  intros Hv Hf. cbn [validate_value]. unfold validate_float.
  destruct v; try discriminate; rewrite Hv, (negative_not_ge_zero f Hf);
    try (now exists "greater_than_equal").
  destruct (is_infinite f); [now exists "float_type" | now exists "greater_than_equal"].
Qed.

Lemma foreign_category_error (v : pyval) :
  (forall c, In c Schemas.categories -> v <> PStr c) ->
  validate_value (TLiteral Schemas.categories) v = inl "literal_error".
Proof.
  intros H. cbn [validate_value]. destruct v; try reflexivity.
  destruct (in_choices s Schemas.categories) eqn:E; [| reflexivity].
  unfold in_choices in E. apply existsb_exists in E as (c & Hc & Hs).
  apply String.eqb_eq in Hs. subst. now destruct (H c Hc).
Qed.

(** C4: a product whose category is not one of the eight (compared
    exactly) or whose price is negative fails validation, and the create
    and update routes answer with the validation error without touching
    the world. *)
Theorem product_validation_rejects (raw : gmap string pyval) :
  (exists v, raw !! "category" = Some v
             /\ forall c, In c Schemas.categories -> v <> PStr c)
  \/ (exists v f, raw !! "price" = Some v /\ float v = Some f /\ fltb f fzero = true) ->
  exists errs,
    validate_model (ProductSchema HttpUrl) raw = Invalid errs
    /\ (forall w, post_products HttpUrl raw w = (Raise (RequestValidationError errs), w))
    /\ (forall id w, put_products HttpUrl id raw w = (Raise (RequestValidationError errs), w)).
Proof using Type.
  intros H.
  assert (E : exists x, In x (fst (validate_fields (ProductSchema HttpUrl) raw))).
  { destruct H as [(v & Hv & Hc) | (v & f & Hv & Hf & Hn)].
    - exists ("category", "literal_error").
      apply (validate_fields_error _ raw (Field "category" (TLiteral Schemas.categories) None) v).
      + right. left. reflexivity.
      + exact Hv.
      + now apply foreign_category_error.
    - destruct (negative_price_error v f Hf Hn) as [e He]. exists ("price", e).
      apply (validate_fields_error _ raw (Field "price" (TFloat (Some 0)) None) v).
      + right. right. left. reflexivity.
      + exact Hv.
      + exact He. }
  destruct E as [x Hx]. pose proof (validate_model_invalid _ _ _ Hx eq_refl) as V.
  eexists. split; [exact V |]. split; intros; now apply with_body_invalid.
Qed.

End Validation.

Lemma consent_is_mandatory_witness :
  (exists errs,
      validate_model (OrderSchema sample_HttpUrl sample_EmailStr sample_date)
        order_without_consent = Invalid errs
      /\ In ("consent", "missing") errs
      /\ forall w, post_orders sample_HttpUrl sample_EmailStr sample_date order_without_consent w
                   = (Raise (RequestValidationError errs), w))
  /\ (exists errs,
      validate_model (ContactSchema sample_EmailStr) order_without_consent = Invalid errs
      /\ In ("consent", "missing") errs
      /\ forall w, post_contact sample_EmailStr order_without_consent w
                   = (Raise (RequestValidationError errs), w))
  /\ In (Field "consent" TBool None) (OrderSchema sample_HttpUrl sample_EmailStr sample_date)
  /\ In (Field "consent" TBool None) (ContactSchema sample_EmailStr).
Proof.
  apply (consent_is_mandatory sample_HttpUrl sample_EmailStr sample_date order_without_consent).
  reflexivity.
Defined.

(** The missing consent is the only thing wrong with the two samples. *)
Example consent_alone_was_missing :
  validate_model (OrderSchema sample_HttpUrl sample_EmailStr sample_date) order_without_consent
  = Invalid [("consent", "missing")]
  /\ validate_model (ContactSchema sample_EmailStr) contact_without_consent
     = Invalid [("consent", "missing")]
  /\ (exists order,
        validate_model (OrderSchema sample_HttpUrl sample_EmailStr sample_date)
          (<["consent" := PBool true]> order_without_consent) = Valid order)
  /\ (exists msg,
        validate_model (ContactSchema sample_EmailStr)
          (<["consent" := PBool false]> contact_without_consent) = Valid msg).
Proof. repeat split; try (eexists; vm_compute; reflexivity); vm_compute; reflexivity. Qed.

Lemma product_validation_witness :
  (exists errs,
      validate_model (ProductSchema sample_HttpUrl) product_wrong_case = Invalid errs
      /\ (forall w, post_products sample_HttpUrl product_wrong_case w
                    = (Raise (RequestValidationError errs), w))
      /\ (forall id w, put_products sample_HttpUrl id product_wrong_case w
                       = (Raise (RequestValidationError errs), w)))
  /\ (exists errs,
      validate_model (ProductSchema sample_HttpUrl) product_negative_price = Invalid errs
      /\ (forall w, post_products sample_HttpUrl product_negative_price w
                    = (Raise (RequestValidationError errs), w))
      /\ (forall id w, put_products sample_HttpUrl id product_negative_price w
                       = (Raise (RequestValidationError errs), w))).
Proof.
  split.
  - apply (product_validation_rejects sample_HttpUrl product_wrong_case).
    left. exists (PStr "Trajnica"). split; [reflexivity |].
    intros c Hc E. injection E as <-. vm_compute in Hc.
    repeat (destruct Hc as [Hc | Hc]; [discriminate Hc |]). exact Hc.
  - apply (product_validation_rejects sample_HttpUrl product_negative_price).
    right. exists (PInt (-4)), (float_of_Z (-4)). repeat split; reflexivity.
Defined.

Example product_samples_errors :
  validate_model (ProductSchema sample_HttpUrl) product_wrong_case
  = Invalid [("category", "literal_error")]
  /\ validate_model (ProductSchema sample_HttpUrl) product_negative_price
     = Invalid [("price", "greater_than_equal")]
  /\ (exists p,
        validate_model (ProductSchema sample_HttpUrl)
          (<["category" := PStr "trajnica"]> product_wrong_case) = Valid p).
Proof. repeat split; try (eexists; vm_compute; reflexivity); vm_compute; reflexivity. Qed.

(** What a successful validation leaves under each field name. *)
Lemma validate_fields_lookup (fs : model) (raw : gmap string pyval) (f : field) :
  NoDup (map fname fs) -> In f fs -> fst (validate_fields fs raw) = [] ->
  snd (validate_fields fs raw) !! fname f
  = match raw !! fname f with
    | Some v => match validate_value (annotation f) v with inr v' => Some v' | inl _ => None end
    | None => fdefault f
    end.
Proof.
  induction fs as [| g fs IH]; intros Hnd Hin He; [destruct Hin |].
  apply NoDup_cons in Hnd as [Hg Hnd].
  assert (Hne : forall f', In f' fs -> fname g <> fname f').
  { intros f' Hf' Heq. apply Hg. rewrite Heq. apply list_elem_of_In. now apply in_map. }
  cbn [validate_fields] in He |- *.
  destruct (validate_fields fs raw) as [errs out] eqn:E. cbn [fst snd] in IH.
  destruct (raw !! fname g) as [u |] eqn:Rg.
  - destruct (validate_value (annotation g) u) as [e | u'] eqn:Vg;
      cbn [fst snd] in He |- *; [discriminate |].
    destruct Hin as [-> | Hin].
    + rewrite Rg, Vg. apply lookup_insert_eq.
    + rewrite lookup_insert_ne by now apply Hne. now apply IH.
  - destruct (fdefault g) as [dflt |] eqn:Dg; cbn [fst snd] in He |- *; [| discriminate].
    destruct Hin as [-> | Hin].
    + rewrite Rg, Dg. apply lookup_insert_eq.
    + rewrite lookup_insert_ne by now apply Hne. now apply IH.
Qed.

Lemma validate_fields_outside (fs : model) (raw : gmap string pyval) (k : string) :
  (forall f, In f fs -> fname f <> k) -> snd (validate_fields fs raw) !! k = None.
Proof.
  induction fs as [| g fs IH]; intros H; simpl; [apply lookup_empty |].
  destruct (validate_fields fs raw) as [errs out] eqn:E. simpl in IH.
  assert (Hout : out !! k = None) by (apply IH; intros f Hf; apply H; now right).
  assert (Hg : fname g <> k) by (apply H; now left).
  destruct (raw !! fname g) as [v |].
  - destruct (validate_value (annotation g) v); simpl; [exact Hout |].
    now rewrite lookup_insert_ne.
  - destruct (fdefault g); simpl; [| exact Hout]. now rewrite lookup_insert_ne.
Qed.

Lemma validate_model_valid (m : model) (raw doc : gmap string pyval) :
  validate_model m raw = Valid doc ->
  fst (validate_fields m raw) = [] /\ snd (validate_fields m raw) = doc.
Proof.
  unfold validate_model. destruct (model_crashes m raw); [discriminate |].
  destruct (validate_fields m raw) as [[| e errs] out]; simpl.
  - intros [= <-]. now split.
  - discriminate.
Qed.

Section RowFields.

Variable HttpUrl : pyval -> option string.

Lemma product_fields_distinct : NoDup (map fname (ProductSchema HttpUrl)).
Proof using Type. apply (bool_decide_unpack _). vm_compute. exact I. Qed.

Lemma row_product_inv (row doc : gmap string pyval) :
  row_product HttpUrl row = Return doc ->
  exists price,
    row_price row = Some price
    /\ validate_model (ProductSchema HttpUrl) (row_kwargs row price) = Valid doc.
Proof using Type.
  unfold row_product. destruct (row_price row) as [price |]; [| discriminate].
  destruct (validate_model _ _) eqn:V; [| discriminate | discriminate].
  intros [= <-]. now exists price.
Qed.

(** C5: every field of a CSV row is taken from the English column when
    that holds something and from the localized column otherwise ([sku]
    from its one column); a row with no price gets price 0 and a row with
    no availability gets "na stanju". *)
Theorem csv_field_resolution (row : gmap string pyval) :
  let first_of primary alias :=
    if truthy (get row primary) then get row primary else get row alias in
  (forall price,
      row_kwargs row price !! "name" = Some (first_of "name" "naziv")
      /\ row_kwargs row price !! "category" = Some (first_of "category" "kategorija")
      /\ row_kwargs row price !! "care" = Some (first_of "care" "njega")
      /\ row_kwargs row price !! "image" = Some (first_of "image" "slika")
      /\ row_kwargs row price !! "sku" = Some (get row "sku")
      /\ row_kwargs row price !! "price" = Some (PFloat price)
      /\ row_kwargs row price !! "availability"
         = Some (if truthy (first_of "availability" "dostupnost")
                 then first_of "availability" "dostupnost" else PStr "na stanju"))
  /\ row_price row
     = float (if truthy (first_of "price" "cijena") then first_of "price" "cijena" else PInt 0)
  /\ (truthy (get row "price") = false -> truthy (get row "cijena") = false ->
      row_price row = Some fzero
      /\ forall doc, row_product HttpUrl row = Return doc ->
                     doc !! "price" = Some (PFloat fzero))
  /\ (truthy (get row "availability") = false -> truthy (get row "dostupnost") = false ->
      forall doc, row_product HttpUrl row = Return doc ->
                  doc !! "availability" = Some (PStr "na stanju")).
Proof using Type.
  intros first_of. split; [| split; [| split]].
  - intros price. unfold row_kwargs, first_of, por.
    repeat split;
      repeat (rewrite lookup_insert_ne by discriminate); now rewrite lookup_insert_eq.
  - reflexivity.
  - intros Hp Hc.
    assert (Hz : row_price row = Some fzero).
    { unfold row_price, por. rewrite Hp, Hc. reflexivity. }
    split; [exact Hz |]. intros doc Hdoc.
    apply row_product_inv in Hdoc as (price & Hprice & V).
    rewrite Hz in Hprice. injection Hprice as <-.
    apply validate_model_valid in V as [He <-].
    rewrite (validate_fields_lookup _ _ (Field "price" (TFloat (Some 0)) None)
               product_fields_distinct); [| right; right; left; reflexivity | exact He].
    cbn [fname annotation fdefault]. unfold row_kwargs.
    repeat (rewrite lookup_insert_ne by discriminate). now rewrite lookup_insert_eq.
  - intros Ha Hd doc Hdoc.
    apply row_product_inv in Hdoc as (price & _ & V).
    apply validate_model_valid in V as [He <-].
    rewrite (validate_fields_lookup _ _
               (Field "availability" (TLiteral Schemas.availabilities) (Some (PStr "na stanju")))
               product_fields_distinct);
      [| right; right; right; left; reflexivity | exact He].
    cbn [fname annotation fdefault]. unfold row_kwargs.
    repeat (rewrite lookup_insert_ne by discriminate). rewrite lookup_insert_eq.
    unfold por. rewrite Ha, Hd. reflexivity.
Qed.

End RowFields.

Lemma csv_field_resolution_witness :
  row_price row_localized = Some fzero
  /\ (forall doc, row_product sample_HttpUrl row_localized = Return doc ->
                  doc !! "price" = Some (PFloat fzero))
  /\ (forall doc, row_product sample_HttpUrl row_localized = Return doc ->
                  doc !! "availability" = Some (PStr "na stanju")).
Proof.
  destruct (csv_field_resolution sample_HttpUrl row_localized) as (_ & _ & Hp & Ha).
  destruct (Hp eq_refl eq_refl) as [Hz Hd].
  exact (conj Hz (conj Hd (Ha eq_refl eq_refl))).
Defined.

(** The localized row is a valid product, stored with the two defaults. *)
Example row_localized_product :
  exists doc,
    row_product sample_HttpUrl row_localized = Return doc
    /\ doc !! "name" = Some (PStr "Ruzmarin")
    /\ doc !! "category" = Some (PStr "zacinsko bilje")
    /\ doc !! "price" = Some (PFloat fzero)
    /\ doc !! "availability" = Some (PStr "na stanju")
    /\ doc !! "care" = Some (PStr "Sunce, malo vode").
Proof. eexists. repeat split; vm_compute; reflexivity. Qed.

(** ** What passes the product schema *)

(** What a validation without errors did with one field. *)
Lemma validate_fields_field (fs : model) (raw : gmap string pyval) (f : field) :
  NoDup (map fname fs) -> In f fs -> fst (validate_fields fs raw) = [] ->
  (exists v v', raw !! fname f = Some v /\ validate_value (annotation f) v = inr v'
                /\ snd (validate_fields fs raw) !! fname f = Some v')
  \/ (exists dflt, raw !! fname f = None /\ fdefault f = Some dflt
                   /\ snd (validate_fields fs raw) !! fname f = Some dflt).
Proof.
  intros Hnd Hin He. pose proof (validate_fields_lookup fs raw f Hnd Hin He) as L.
  destruct (raw !! fname f) as [v |] eqn:R.
  - destruct (validate_value (annotation f) v) as [e | v'] eqn:V.
    + pose proof (validate_fields_error fs raw f v e Hin R V) as Er.
      rewrite He in Er. destruct Er.
    + left. now exists v, v'.
  - destruct (fdefault f) as [dflt |] eqn:D.
    + right. now exists dflt.
    + pose proof (validate_fields_missing fs raw f Hin D R) as Er.
      rewrite He in Er. destruct Er.
Qed.

Lemma in_choices_In (s : string) (l : list string) : in_choices s l = true -> In s l.
Proof.
  unfold in_choices. intros H. apply existsb_exists in H as (c & Hc & E).
  apply String.eqb_eq in E. now subst.
Qed.

Lemma float_ge_zero (v : pyval) (u : pyval) :
  validate_value (TFloat (Some 0)) v = inr u ->
  exists x, u = PFloat x /\ float v = Some x /\ fleb fzero x = true.
Proof.
  cbn [validate_value]. unfold validate_float.
  destruct v; try discriminate;
    (destruct (float _) as [x |] eqn:F; [| discriminate]);
    try (destruct (is_infinite x); [discriminate |]);
    (destruct (fleb (float_of_Z 0) x) eqn:L; [| discriminate]);
    intros [= <-]; exists x; repeat split; exact L.
Qed.

Lemma ge_zero_meaning (x : spec_float) :
  fleb fzero x = true -> x <> S754_nan /\ fltb x fzero = false.
Proof.
  destruct x as [s | s | | s m e]; try destruct s; vm_compute; split; congruence.
Qed.

Lemma optional_str (v u : pyval) :
  validate_value (TOptional TStr) v = inr u -> u = v /\ is_present_opt_str (Some u) = true.
Proof. destruct v; cbn; try discriminate; intros [= <-]; now split. Qed.

Lemma literal_choice (choices : list string) (v u : pyval) :
  validate_value (TLiteral choices) v = inr u ->
  exists s, v = PStr s /\ u = PStr s /\ In s choices.
Proof.
  cbn [validate_value]. destruct v; try discriminate.
  destruct (in_choices s choices) eqn:E; [| discriminate].
  intros [= <-]. exists s. repeat split. now apply in_choices_In.
Qed.

Section ProductShape.

Variable HttpUrl : pyval -> option string.

(** The fields of a product that passed the schema. *)
Lemma valid_product_shape (raw product : gmap string pyval) :
  validate_model (ProductSchema HttpUrl) raw = Valid product ->
  (exists n, raw !! "name" = Some (PStr n) /\ product !! "name" = Some (PStr n))
  /\ (exists c, raw !! "category" = Some (PStr c) /\ product !! "category" = Some (PStr c)
                /\ In c Schemas.categories)
  /\ (exists v x, raw !! "price" = Some v /\ float v = Some x
                  /\ product !! "price" = Some (PFloat x) /\ fleb fzero x = true)
  /\ (exists a, product !! "availability" = Some (PStr a) /\ In a Schemas.availabilities
                /\ (raw !! "availability" = None -> a = "na stanju"))
  /\ is_present_opt_str (product !! "sku") = true
  /\ is_present_opt_str (product !! "care") = true
  /\ (product !! "image" = Some PNone
      /\ (raw !! "image" = None \/ raw !! "image" = Some PNone)
      \/ exists v u, raw !! "image" = Some v /\ v <> PNone /\ HttpUrl v = Some u
                     /\ product !! "image" = Some (PUrl u))
  /\ (forall k, ~ In k (model_fields (ProductSchema HttpUrl)) -> product !! k = None).
Proof using Type.
  intros V. apply validate_model_valid in V as [He <-].
  pose proof (fun f Hin => validate_fields_field (ProductSchema HttpUrl) raw f
                             (product_fields_distinct HttpUrl) Hin He) as L.
  split; [| split; [| split; [| split; [| split; [| split; [| split]]]]]].
  - destruct (L (Field "name" TStr None) ltac:(left; reflexivity))
      as [(v & v' & R & Vv & O) | (dflt & _ & D & _)]; [| discriminate D].
    cbn [fname annotation] in *. destruct v; try discriminate Vv.
    injection Vv as <-. now exists s.
  - destruct (L (Field "category" (TLiteral Schemas.categories) None)
                ltac:(right; left; reflexivity))
      as [(v & v' & R & Vv & O) | (dflt & _ & D & _)]; [| discriminate D].
    cbn [fname annotation] in *. apply literal_choice in Vv as (c & -> & -> & Hc).
    now exists c.
  - destruct (L (Field "price" (TFloat (Some 0)) None) ltac:(right; right; left; reflexivity))
      as [(v & v' & R & Vv & O) | (dflt & _ & D & _)]; [| discriminate D].
    cbn [fname annotation] in *. apply float_ge_zero in Vv as (x & -> & F & G).
    now exists v, x.
  - destruct (L (Field "availability" (TLiteral Schemas.availabilities) (Some (PStr "na stanju")))
                ltac:(right; right; right; left; reflexivity))
      as [(v & v' & R & Vv & O) | (dflt & R & D & O)]; cbn [fname annotation fdefault] in *.
    + apply literal_choice in Vv as (a & -> & -> & Ha). exists a.
      repeat split; [exact O | exact Ha | congruence].
    + injection D as <-. exists "na stanju". repeat split; [exact O | now left].
  - destruct (L (Field "sku" (TOptional TStr) (Some PNone))
                ltac:(do 4 right; left; reflexivity))
      as [(v & v' & R & Vv & O) | (dflt & R & D & O)]; cbn [fname annotation fdefault] in *.
    + rewrite O. now apply optional_str in Vv as [_ Vv].
    + injection D as <-. now rewrite O.
  - destruct (L (Field "care" (TOptional TStr) (Some PNone))
                ltac:(do 5 right; left; reflexivity))
      as [(v & v' & R & Vv & O) | (dflt & R & D & O)]; cbn [fname annotation fdefault] in *.
    + rewrite O. now apply optional_str in Vv as [_ Vv].
    + injection D as <-. now rewrite O.
  - destruct (L (Field "image" (TOptional (TCustom "url_parsing" (Schemas.url HttpUrl)))
                       (Some PNone))
                ltac:(do 6 right; left; reflexivity))
      as [(v & v' & R & Vv & O) | (dflt & R & D & O)]; cbn [fname annotation fdefault] in *.
    + assert (Cases : v = PNone
                      \/ (v <> PNone
                          /\ validate_value (TCustom "url_parsing" (Schemas.url HttpUrl)) v
                             = inr v')).
      { destruct v; [now left | right; split; [discriminate | exact Vv] ..]. }
      destruct Cases as [-> | [Nv Vu]].
      * cbn in Vv. injection Vv as <-. left. split; [exact O | now right].
      * right. cbn [validate_value] in Vu. unfold Schemas.url in Vu.
        destruct (HttpUrl v) as [u |] eqn:Hu; [| discriminate Vu].
        cbn in Vu. injection Vu as <-. now exists v, u.
    + injection D as <-. left. split; [exact O | now left].
  - intros k Hk. apply validate_fields_outside. intros f Hf E. apply Hk.
    subst k. unfold model_fields. now apply in_map.
Qed.

End ProductShape.

Lemma existsb_map_to_list {V} (f : string * V -> bool) (m : gmap string V) :
  existsb f (map_to_list m) = true <-> exists k v, m !! k = Some v /\ f (k, v) = true.
Proof.
  rewrite existsb_exists. split.
  - intros ([k v] & Hin & Hf). exists k, v. split; [| exact Hf].
    now apply elem_of_map_to_list, list_elem_of_In.
  - intros (k & v & Hl & Hf). exists (k, v). split; [| exact Hf].
    now apply list_elem_of_In, elem_of_map_to_list.
Qed.

Section ProductEncoding.

Variable HttpUrl : pyval -> option string.

(** A product that passed the schema can be encoded for the store when,
    and only when, it has no image. *)
Lemma valid_product_encoding (raw product : gmap string pyval) :
  validate_model (ProductSchema HttpUrl) raw = Valid product ->
  (product !! "image" = Some PNone /\ encode_error product = None)
  \/ (exists u, product !! "image" = Some (PUrl u)
                /\ encode_error product = Some InvalidDocument).
Proof using Type.
  intros V.
  destruct (valid_product_shape HttpUrl raw product V)
    as ((n & _ & Pn) & (c & _ & Pc & _) & (v & x & _ & _ & Pp & _) & (a & Pa & _)
        & Ps & Pk & Pi & Out).
  unfold encode_error.
  destruct Pi as [[Pi _] | (vi & u & _ & _ & _ & Pi)].
  - left. split; [exact Pi |].
    assert (K : forall k val, product !! k = Some val ->
                  Bson.holds_url val = false /\ Bson.holds_big_int val = false).
    { intros k val Hk.
      destruct (In_dec string_dec k (model_fields (ProductSchema HttpUrl))) as [Hin | Hout];
        [| rewrite (Out k Hout) in Hk; discriminate Hk].
      cbn in Hin. destruct Hin as [<- | [<- | [<- | [<- | [<- | [<- | [<- | []]]]]]]].
      - rewrite Pn in Hk. injection Hk as <-. now split.
      - rewrite Pc in Hk. injection Hk as <-. now split.
      - rewrite Pp in Hk. injection Hk as <-. now split.
      - rewrite Pa in Hk. injection Hk as <-. now split.
      - rewrite Hk in Ps. destruct val; try discriminate Ps; now split.
      - rewrite Hk in Pk. destruct val; try discriminate Pk; now split.
      - rewrite Pi in Hk. injection Hk as <-. now split. }
    destruct (existsb (fun kv => Bson.holds_url (snd kv)) (map_to_list product)) eqn:E1.
    { apply existsb_map_to_list in E1 as (k & val & Hk & Hf).
      destruct (K k val Hk) as [U _]. cbn [snd] in Hf. congruence. }
    destruct (existsb (fun kv => Bson.holds_big_int (snd kv)) (map_to_list product)) eqn:E2.
    { apply existsb_map_to_list in E2 as (k & val & Hk & Hf).
      destruct (K k val Hk) as [_ B]. cbn [snd] in Hf. congruence. }
    reflexivity.
  - right. exists u. split; [exact Pi |].
    assert (E1 : existsb (fun kv => Bson.holds_url (snd kv)) (map_to_list product) = true).
    { apply existsb_map_to_list. now exists "image", (PUrl u). }
    now rewrite E1.
Qed.

End ProductEncoding.

(** ** CSV import *)

Section ImportLoop.

Variable HttpUrl : pyval -> option string.

Lemma import_row_stored (row doc : gmap string pyval) (n : Z) (w : world) (d : database) :
  db w = Some d -> row_product HttpUrl row = Return doc -> storable doc = true ->
  import_row HttpUrl row n w
  = (Return (n + 1),
     World (Some (fst (insert_doc d COLL_PRODUCTS doc)))
           (ops w ++ [OpInsertOne COLL_PRODUCTS doc]) (env w) (outbox w)).
Proof using Type.
  intros Hd Hrow Hs. unfold import_row, try_except, bind, lift, insert_one, ret.
  rewrite Hrow. cbn [db issue]. rewrite Hd. unfold storable in Hs.
  destruct (encode_error doc); [discriminate Hs | reflexivity].
Qed.

Lemma import_row_refused (row doc : gmap string pyval) (n : Z) (w : world) (d : database) :
  db w = Some d -> row_product HttpUrl row = Return doc -> storable doc = false ->
  import_row HttpUrl row n w = (Return n, w).
Proof using Type.
  intros Hd Hrow Hs. unfold import_row, try_except, bind, lift, insert_one, ret.
  rewrite Hrow. cbn [db issue]. rewrite Hd. unfold storable in Hs.
  destruct (encode_error doc); [reflexivity | discriminate Hs].
Qed.

Lemma import_row_invalid (row : gmap string pyval) (n : Z) (w : world) (e : exn) :
  row_product HttpUrl row = Raise e -> import_row HttpUrl row n w = (Return n, w).
Proof using Type.
  intros Hrow. unfold import_row, try_except, bind, lift. now rewrite Hrow.
Qed.

Lemma valid_products_cons (row : gmap string pyval) (rows : list (gmap string pyval)) :
  valid_products HttpUrl (row :: rows)
  = match row_product HttpUrl row with
    | Return doc => doc :: valid_products HttpUrl rows
    | Raise _ => valid_products HttpUrl rows
    end.
Proof using Type.
  unfold valid_products, product_of_row. cbn.
  now destruct (row_product HttpUrl row).
Qed.

Lemma import_rows_spec (rows : list (gmap string pyval)) (n : Z) (w : world) (d : database) :
  db w = Some d ->
  let kept := List.filter storable (valid_products HttpUrl rows) in
  import_rows HttpUrl rows n w
  = (Return (n + Z.of_nat (length kept)),
     World (Some (insert_all d kept)) (ops w ++ map (OpInsertOne COLL_PRODUCTS) kept)
           (env w) (outbox w)).
Proof using Type.
  revert n w d. induction rows as [| row rows IH]; intros n w d Hd.
  - cbn. rewrite Z.add_0_r, app_nil_r. unfold ret. destruct w; cbn in *. now subst.
  - cbn [import_rows]. rewrite valid_products_cons. cbv zeta.
    destruct (row_product HttpUrl row) as [doc | e] eqn:Hrow.
    + cbn [List.filter]. destruct (storable doc) eqn:Hs.
      * rewrite (bind_return _ _ _ _ _ (import_row_stored row doc n w d Hd Hrow Hs)).
        erewrite IH by reflexivity. cbn [ops env outbox length map insert_all fold_left].
        rewrite <- app_assoc. f_equal. f_equal. lia.
      * rewrite (bind_return _ _ _ _ _ (import_row_refused row doc n w d Hd Hrow Hs)).
        now apply IH.
    + rewrite (bind_return _ _ _ _ _ (import_row_invalid row n w e Hrow)).
      now apply IH.
Qed.

Lemma valid_product_no_id (row doc : gmap string pyval) :
  product_of_row HttpUrl row = Some doc -> doc !! "_id" = None.
Proof using Type.
  unfold product_of_row. destruct (row_product HttpUrl row) as [doc' |] eqn:Hrow; [| discriminate].
  intros [= <-]. apply row_product_inv in Hrow as (price & _ & V).
  apply validate_model_valid in V as [_ <-]. apply validate_fields_outside.
  intros f Hf. cbn in Hf.
  repeat (destruct Hf as [<- | Hf]; [discriminate |]). destruct Hf.
Qed.

Lemma insert_doc_fresh (d : database) (doc : gmap string pyval) :
  doc !! "_id" = None ->
  let d' := fst (insert_doc d COLL_PRODUCTS doc) in
  products d' = products d ++ [<["_id" := PObjectId (Bson.new_oid (inserted d))]> doc]
  /\ inserted d' = (inserted d + 1)%N
  /\ forall coll, coll <> COLL_PRODUCTS -> docs_of d' coll = docs_of d coll.
Proof using Type.
  intros H d'. subst d'. unfold insert_doc, products, docs_of. rewrite H.
  cbn [fst collections inserted default]. rewrite lookup_insert_eq.
  split; [reflexivity | split; [reflexivity |]].
  intros coll Hc. now rewrite lookup_insert_ne.
Qed.

Lemma insert_all_products (docs : list (gmap string pyval)) (d : database) :
  Forall (fun doc => doc !! "_id" = None) docs ->
  products (insert_all d docs) = products d ++ stored_from (inserted d) docs
  /\ inserted (insert_all d docs) = (inserted d + N.of_nat (length docs))%N
  /\ forall coll, coll <> COLL_PRODUCTS -> docs_of (insert_all d docs) coll = docs_of d coll.
Proof using Type.
  revert d. induction docs as [| doc docs IH]; intros d H.
  - cbn [insert_all fold_left stored_from length]. rewrite app_nil_r, N.add_0_r. auto.
  - apply Forall_cons in H as [Hid H]. cbn [insert_all fold_left stored_from length].
    fold (insert_all (fst (insert_doc d COLL_PRODUCTS doc)) docs).
    destruct (IH (fst (insert_doc d COLL_PRODUCTS doc)) H) as (P & I & O).
    destruct (insert_doc_fresh d doc Hid) as (P1 & I1 & O1).
    split; [| split].
    + rewrite P, P1, I1, <- app_assoc. reflexivity.
    + rewrite I, I1. lia.
    + intros coll Hc. now rewrite (O coll Hc), (O1 coll Hc).
Qed.

Lemma valid_products_no_id (rows : list (gmap string pyval)) :
  Forall (fun doc => doc !! "_id" = None) (valid_products HttpUrl rows).
Proof using Type.
  apply Forall_forall. intros doc Hdoc.
  unfold valid_products in Hdoc. apply list_elem_of_omap in Hdoc as (row & _ & Hrow).
  now apply (valid_product_no_id row).
Qed.

Lemma valid_products_length (rows : list (gmap string pyval)) :
  (length (valid_products HttpUrl rows) <= length rows)%nat.
Proof using Type.
  induction rows as [| row rows IH]; [reflexivity |].
  rewrite valid_products_cons. destruct (row_product HttpUrl row); cbn; lia.
Qed.

Lemma valid_product_storable (rows : list (gmap string pyval)) (doc : gmap string pyval) :
  In doc (valid_products HttpUrl rows) ->
  (doc !! "image" = Some PNone /\ storable doc = true)
  \/ (exists u, doc !! "image" = Some (PUrl u) /\ storable doc = false).
Proof using Type.
  intros Hdoc. unfold valid_products in Hdoc.
  apply list_elem_of_In, list_elem_of_omap in Hdoc as (row & _ & Hrow).
  unfold product_of_row in Hrow.
  destruct (row_product HttpUrl row) as [doc' |] eqn:R; [| discriminate].
  injection Hrow as ->. apply row_product_inv in R as (price & _ & V).
  unfold storable.
  destruct (valid_product_encoding HttpUrl _ _ V) as [[I E] | (u & I & E)]; rewrite E.
  - now left.
  - right. now exists u.
Qed.

(** C3, as the code has it: an upload whose reader yields [rows] is
    imported row by row in file order, and the rows that fail validation
    or conversion leave no trace. Of the rows that give a valid product,
    those without an image are inserted, one [insert_one] each, and
    counted. A valid product with an image is not: its image is a [Url]
    object, the driver refuses to encode it, and the refusal is discarded
    like a validation error. *)
Theorem import_counts_stored_rows (w : world) (d : database) (content : string)
    (rows : list (gmap string pyval)) :
  db w = Some d ->
  Csv.DictReader content = (rows, false) ->
  let valid := valid_products HttpUrl rows in
  let kept := List.filter storable valid in
  import_products_csv HttpUrl content w
  = (Return {[ "inserted" := PInt (Z.of_nat (length kept)) ]},
     World (Some (insert_all d kept))
           (ops w ++ map (OpInsertOne COLL_PRODUCTS) kept) (env w) (outbox w))
  /\ products (insert_all d kept) = products d ++ stored_from (inserted d) kept
  /\ (forall doc, In doc valid ->
        (doc !! "image" = Some PNone /\ In doc kept)
        \/ (exists u, doc !! "image" = Some (PUrl u) /\ ~ In doc kept))
  /\ (length kept <= length valid <= length rows)%nat
  /\ forall coll, coll <> COLL_PRODUCTS -> docs_of (insert_all d kept) coll = docs_of d coll.
Proof using Type.
  intros Hd Hrows valid kept.
  assert (Hid : Forall (fun doc => doc !! "_id" = None) kept).
  { apply Forall_forall. intros doc Hdoc. apply list_elem_of_In, filter_In in Hdoc as [Hdoc _].
    pose proof (valid_products_no_id rows) as F. rewrite Forall_forall in F.
    now apply F, list_elem_of_In. }
  destruct (insert_all_products kept d Hid) as (P & _ & O).
  split; [| split; [exact P | split; [| split; [| exact O]]]].
  - unfold import_products_csv.
    rewrite (bind_return _ _ _ _ _ (require_db_Some w d Hd)), Hrows.
    rewrite (bind_return _ _ _ _ _ (import_rows_spec rows 0 w d Hd)). reflexivity.
  - intros doc Hdoc.
    destruct (valid_product_storable rows doc Hdoc) as [[I S] | (u & I & S)].
    + left. split; [exact I |]. apply filter_In. now split.
    + right. exists u. split; [exact I |]. intros Hin. apply filter_In in Hin as [_ Hs].
      congruence.
  - split; [apply filter_length_le | apply valid_products_length].
Qed.

End ImportLoop.

(** The upload of one valid row with an image: nothing is stored and the
    answer is [{"inserted": 0}]. *)
Lemma import_counts_stored_rows_witness :
  (exists row product,
      fst (Csv.DictReader csv_with_image) = [row]
      /\ row_product sample_HttpUrl row = Return product
      /\ product !! "image" = Some (PUrl "http://x.hr/ruza.webp"))
  /\ import_products_csv sample_HttpUrl csv_with_image w_empty
     = (Return {[ "inserted" := PInt 0 ]}, w_empty).
Proof.
  split; [do 2 eexists; repeat split; vm_compute; reflexivity |].
  destruct (import_counts_stored_rows sample_HttpUrl w_empty (Database ∅ 0) csv_with_image
              (fst (Csv.DictReader csv_with_image)) eq_refl) as (E & _).
  { vm_compute. reflexivity. }
  rewrite E. vm_compute. reflexivity.
Defined.

(** The sample upload: four data rows, two of them valid products; the
    one without an image is stored. *)
Example import_sample :
  length (fst (Csv.DictReader sample_csv)) = 4%nat
  /\ snd (Csv.DictReader sample_csv) = false
  /\ map (fun doc => get doc "name") (valid_products sample_HttpUrl (fst (Csv.DictReader sample_csv)))
     = [PStr "Ruza"; PStr "Aloe"]
  /\ map (row_product sample_HttpUrl) (fst (Csv.DictReader sample_csv)) !! 1%nat
     = Some (Raise (ValidationError [("category", "literal_error")]))
  /\ map (row_product sample_HttpUrl) (fst (Csv.DictReader sample_csv)) !! 2%nat
     = Some (Raise ValueError)
  /\ fst (import_products_csv sample_HttpUrl sample_csv w_empty)
     = Return {[ "inserted" := PInt 1 ]}.
Proof. repeat split; vm_compute; reflexivity. Qed.

(** ** The store and the monad *)

Lemma chars_str_of (l : list ascii) : chars (str_of l) = l.
Proof. apply list_ascii_of_string_of_list_ascii. Qed.

Lemma str_of_chars (s : string) : str_of (chars s) = s.
Proof. apply string_of_list_ascii_of_string. Qed.

Lemma map_M_pure {A B} (f : A -> M B) (g : A -> B) (l : list A) (w : world) :
  (forall x, In x l -> f x w = (Return (g x), w)) ->
  map_M f l w = (Return (map g l), w).
Proof.
  induction l as [| x l IH]; intros H; [reflexivity |].
  cbn [map_M map]. rewrite (bind_return _ _ _ _ _ (H x (or_introl eq_refl))).
  rewrite (bind_return _ _ _ _ _ (IH (fun y Hy => H y (or_intror Hy)))). reflexivity.
Qed.

Lemma matches_empty (doc : gmap string pyval) : matches ∅ doc = true.
Proof. unfold matches. now rewrite map_to_list_empty. Qed.

Lemma find_all (coll : string) (w : world) (d : database) :
  db w = Some d ->
  find coll ∅ w = (Return (docs_of d coll), issue (OpFind coll ∅) w).
Proof.
  intros Hd. unfold find, query_error. rewrite Hd, map_to_list_empty. cbn [existsb].
  unfold find_docs. f_equal. f_equal.
  induction (docs_of d coll) as [| doc l IH]; [reflexivity |].
  cbn [List.filter]. now rewrite matches_empty, IH.
Qed.

Lemma is_product_fields (d : gmap string pyval) :
  is_product d = true ->
  is_oid (d !! "_id") = true /\ is_str (d !! "name") = true /\ is_str (d !! "category") = true
  /\ is_float (d !! "price") = true /\ is_str (d !! "availability") = true
  /\ is_opt_str (d !! "sku") = true /\ is_opt_str (d !! "care") = true
  /\ is_opt_str (d !! "image") = true.
Proof.
  unfold is_product. intros H.
  repeat (apply andb_prop in H as [H ?]). repeat split; assumption.
Qed.

(** ** Reading back what the writer wrote *)

Section ReadBack.

Import Csv.

Lemma feed_app (p : parser) (a b : list input) :
  feed p (a ++ b) = match feed p a with Some p' => feed p' b | None => None end.
Proof.
  revert p. induction a as [| i a IH]; intros p; [reflexivity |].
  cbn [feed app]. destruct (process_char p i); [apply IH | reflexivity].
Qed.

Lemma next_record_end (p : parser) : next_record p [] = at_end p.
Proof. reflexivity. Qed.

Lemma next_record_chars (l cur : list ascii) (p0 : parser) :
  next_record p0 (lines_from cur l)
  = match feed p0 (map Char (rev cur)) with
    | Some p => next_chars (match cur with [] => false | _ => true end) p l
    | None => Failed
    end.
Proof.
  revert cur p0. induction l as [| c l IH]; intros cur p0.
  - destruct cur as [| x cur]; [reflexivity |].
    cbn [lines_from next_record next_chars]. rewrite feed_app.
    destruct (feed p0 (map Char (rev (x :: cur)))) as [p |]; [| reflexivity].
    cbn [feed]. destruct (process_char p EOL) as [p' |]; [| reflexivity].
    destruct (is_start (st p')); reflexivity.
  - cbn [lines_from next_chars]. destruct (ascii_eqb c newline) eqn:E.
    + cbn [next_record rev]. rewrite map_app, <- app_assoc, feed_app.
      destruct (feed p0 (map Char (rev cur))) as [p |].
      * cbn [map app feed].
        destruct (process_char p (Char c)) as [p1 |]; [| now destruct cur].
        destruct (process_char p1 EOL) as [p2 |]; [| now destruct cur].
        destruct (is_start (st p2)); [now destruct cur |].
        rewrite (IH [] p2). now destruct cur.
      * reflexivity.
    + rewrite (IH (c :: cur) p0). cbn [rev]. rewrite map_app, feed_app.
      destruct (feed p0 (map Char (rev cur))) as [p |]; [| reflexivity].
      cbn [map feed].
      destruct (process_char p (Char c)) as [p1 |]; now destruct cur.
Qed.

Lemma delim_cases (d : ascii) :
  is_delim d = true -> d = comma \/ d = carriage_return.
Proof.
  unfold is_delim, ascii_eqb. rewrite orb_true_iff, !Ascii.eqb_eq. tauto.
Qed.

Lemma plain_then_delim (l acc : list ascii) (fs : list string) (mid : bool) (d : ascii)
    (rest : list ascii) :
  existsb special l = false -> is_delim d = true ->
  next_chars mid (Parser IN_FIELD fs acc) (l ++ d :: rest)
  = next_chars true (next_field d fs (rev acc ++ l)) rest.
Proof.
  intros Hl Hd. revert acc mid Hl. induction l as [| c l IH]; intros acc mid Hl.
  - rewrite app_nil_r. cbn [app next_chars].
    destruct (delim_cases d Hd) as [-> | ->]; reflexivity.
  - cbn [existsb] in Hl. apply orb_false_elim in Hl as [Hc Hl].
    cbn [app next_chars]. unfold special in Hc.
    repeat (apply orb_false_elim in Hc as [Hc ?]).
    assert (P : process_char (Parser IN_FIELD fs acc) (Char c)
                = Some (Parser IN_FIELD fs (c :: acc))).
    { unfold process_char, is_nl, is_eol, is_char. cbn [st].
      now rewrite H, H0, Hc. }
    rewrite P, H. rewrite (IH (c :: acc) true Hl). cbn [rev]. now rewrite <- app_assoc.
Qed.

Lemma quoted_then_delim (l acc : list ascii) (fs : list string) (mid : bool) (d : ascii)
    (rest : list ascii) :
  is_delim d = true ->
  next_chars mid (Parser IN_QUOTED_FIELD fs acc) (flat_map doubled l ++ dquote :: d :: rest)
  = next_chars true (next_field d fs (rev acc ++ l)) rest.
Proof.
  intros Hd. revert acc mid. induction l as [| c l IH]; intros acc mid.
  - rewrite app_nil_r. cbn [flat_map app next_chars].
    destruct (delim_cases d Hd) as [-> | ->]; reflexivity.
  - cbn [flat_map]. unfold doubled at 1. destruct (ascii_eqb c dquote) eqn:Q.
    + apply Ascii.eqb_eq in Q. subst c. cbn [app next_chars].
      change (process_char (Parser IN_QUOTED_FIELD fs acc) (Char dquote))
        with (Some (Parser QUOTE_IN_QUOTED_FIELD fs acc)).
      change (ascii_eqb dquote newline) with false. cbn iota.
      change (process_char (Parser QUOTE_IN_QUOTED_FIELD fs acc) (Char dquote))
        with (Some (Parser IN_QUOTED_FIELD fs (dquote :: acc))).
      cbn iota. rewrite (IH (dquote :: acc) true). cbn [rev]. now rewrite <- app_assoc.
    + cbn [app next_chars].
      assert (P : process_char (Parser IN_QUOTED_FIELD fs acc) (Char c)
                  = Some (Parser IN_QUOTED_FIELD fs (c :: acc))).
      { unfold process_char, is_eol, is_char. cbn [st]. now rewrite Q. }
      rewrite P. destruct (ascii_eqb c newline).
      * change (process_char (Parser IN_QUOTED_FIELD fs (c :: acc)) EOL)
          with (Some (Parser IN_QUOTED_FIELD fs (c :: acc))).
        cbn iota. change (is_start (st (Parser IN_QUOTED_FIELD fs (c :: acc)))) with false.
        cbn iota. rewrite (IH (c :: acc) false). cbn [rev]. now rewrite <- app_assoc.
      * rewrite (IH (c :: acc) true). cbn [rev]. now rewrite <- app_assoc.
Qed.

(** A cell as the writer puts it, then a delimiter: the reader has the cell. *)
Lemma cell_then_delim (cell : list ascii) (fs : list string) (mid : bool) (d : ascii)
    (rest : list ascii) :
  is_delim d = true ->
  next_chars mid (Parser START_FIELD fs []) (field_text cell ++ d :: rest)
  = next_chars true (next_field d fs cell) rest.
Proof.
  intros Hd. unfold field_text. destruct (existsb special cell) eqn:S.
  - unfold quoted. fold doubled. change (fun c => if ascii_eqb c dquote then [dquote; dquote] else [c])
      with doubled.
    rewrite <- !app_assoc. cbn [app next_chars].
    change (process_char (Parser START_FIELD fs []) (Char dquote))
      with (Some (Parser IN_QUOTED_FIELD fs [])).
    change (ascii_eqb dquote newline) with false. cbn iota.
    now rewrite (quoted_then_delim cell [] fs true d rest Hd).
  - destruct cell as [| c l].
    + cbn [app next_chars]. destruct (delim_cases d Hd) as [-> | ->]; reflexivity.
    + cbn [existsb] in S. apply orb_false_elim in S as [Hc Hl].
      cbn [app next_chars]. unfold special in Hc.
      repeat (apply orb_false_elim in Hc as [Hc ?]).
      assert (P : process_char (Parser START_FIELD fs []) (Char c)
                  = Some (Parser IN_FIELD fs [c])).
      { unfold process_char, start_field, is_nl, is_eol, is_char. cbn [st].
        now rewrite H, H0, H1, Hc. }
      rewrite P, H. now rewrite (plain_then_delim l [c] fs true d rest Hl Hd).
Qed.

Lemma row_from_field (cells : list (list ascii)) (fs : list string) (mid : bool)
    (rest : list ascii) :
  cells <> [] ->
  next_chars mid (Parser START_FIELD fs [])
    (join [comma] (map field_text cells) ++ carriage_return :: newline :: rest)
  = Record_ (rev fs ++ map str_of cells) (lines_from [] rest).
Proof.
  intros Hne. revert fs mid. induction cells as [| c more IH]; intros fs mid; [now destruct Hne |].
  destruct more as [| c' more'].
  - cbn [map join]. rewrite (cell_then_delim c fs mid carriage_return _ eq_refl). reflexivity.
  - change (join [comma] (map field_text (c :: c' :: more')))
      with (field_text c ++ [comma] ++ join [comma] (map field_text (c' :: more'))).
    rewrite <- !app_assoc. cbn [app].
    rewrite (cell_then_delim c fs mid comma _ eq_refl).
    unfold next_field. change (ascii_eqb comma comma) with true. cbn iota.
    rewrite (IH ltac:(discriminate) (str_of c :: fs) true).
    cbn [rev map]. now rewrite <- app_assoc.
Qed.

Lemma start_record_as_field (fs : list string) (mid : bool) (c : ascii) (l : list ascii) :
  is_nl (Char c) = false ->
  next_chars mid (Parser START_RECORD fs []) (c :: l)
  = next_chars mid (Parser START_FIELD fs []) (c :: l).
Proof.
  intros H. cbn [next_chars]. unfold process_char. cbn [st is_eol]. now rewrite H.
Qed.

Lemma field_text_head (cell : list ascii) (c : ascii) (l : list ascii) :
  field_text cell = c :: l -> is_nl (Char c) = false.
Proof.
  unfold field_text. destruct (existsb special cell) eqn:S.
  - intros [= <- _]. reflexivity.
  - intros ->. cbn [existsb] in S. apply orb_false_elim in S as [S _].
    unfold special in S. repeat (apply orb_false_elim in S as [S ?]).
    unfold is_nl. now rewrite H, H0.
Qed.

Lemma row_from_start (cells : list (list ascii)) (rest : list ascii) :
  proper_row cells ->
  next_chars false fresh (csv_record cells ++ rest)
  = Record_ (map str_of cells) (lines_from [] rest).
Proof.
  intros [Hne Hs]. unfold csv_record. rewrite <- app_assoc. cbn [app].
  transitivity (next_chars false (Parser START_FIELD [] [])
                  (join [comma] (map field_text cells) ++ carriage_return :: newline :: rest));
    [| exact (row_from_field cells [] false rest Hne)].
  unfold fresh.
  destruct cells as [| c more]; [now destruct Hne |].
  destruct (field_text c) as [| x l] eqn:F.
  - destruct more as [| c' more'].
    + exfalso. apply Hs. f_equal. unfold field_text in F.
      destruct (existsb special c); [discriminate F | exact F].
    + change (join [comma] (map field_text (c :: c' :: more')))
        with (field_text c ++ [comma] ++ join [comma] (map field_text (c' :: more'))).
      rewrite F. cbn [app]. now apply start_record_as_field.
  - assert (E : exists t, join [comma] (map field_text (c :: more)) = x :: t).
    { destruct more as [| c' more'].
      - cbn [map join]. rewrite F. now exists l.
      - change (join [comma] (map field_text (c :: c' :: more')))
          with (field_text c ++ [comma] ++ join [comma] (map field_text (c' :: more'))).
        rewrite F. cbn [app]. eauto. }
    destruct E as [t ->]. cbn [app]. apply start_record_as_field.
    now apply (field_text_head c x l).
Qed.

Lemma lines_after_newline (a cur b : list ascii) :
  (S (length (lines_from [] b)) <= length (lines_from cur (a ++ newline :: b)))%nat.
Proof.
  revert cur. induction a as [| c a IH]; intros cur.
  - cbn. lia.
  - cbn [app lines_from]. destruct (ascii_eqb c newline).
    + cbn [length]. specialize (IH []). lia.
    + apply IH.
Qed.

Lemma lines_count (rows : list (list (list ascii))) :
  (length rows <= length (lines_from [] (flat_map csv_record rows)))%nat.
Proof.
  induction rows as [| r rows IH]; [cbn; lia |].
  cbn [flat_map length]. unfold csv_record at 1.
  rewrite <- !app_assoc. cbn [app].
  pose proof (lines_after_newline
                (join [comma] (map field_text r) ++ [carriage_return]) []
                (flat_map csv_record rows)) as L.
  rewrite <- app_assoc in L. cbn [app] in L. lia.
Qed.

Lemma records_rows (rows : list (list (list ascii))) (fuel : nat) :
  Forall proper_row rows -> (length rows < fuel)%nat ->
  records fuel (lines_from [] (flat_map csv_record rows)) = (map (map str_of) rows, false).
Proof.
  revert fuel. induction rows as [| r rows IH]; intros fuel Hr Hf.
  - destruct fuel as [| n]; [cbn in Hf; lia | reflexivity].
  - apply Forall_cons in Hr as [Hr Hrows].
    destruct fuel as [| n]; [cbn in Hf; lia |].
    cbn [records flat_map map].
    rewrite (next_record_chars (csv_record r ++ flat_map csv_record rows) [] fresh).
    cbn [rev map feed]. rewrite (row_from_start r _ Hr).
    rewrite (IH n Hrows ltac:(cbn in Hf; lia)). reflexivity.
Qed.

(** The reader gives back the rows the writer wrote. *)
Lemma reader_of_rows (rows : list (list (list ascii))) :
  Forall proper_row rows ->
  reader (str_of (flat_map csv_record rows)) = (map (map str_of) rows, false).
Proof.
  intros H. unfold reader, splitlines. rewrite chars_str_of.
  apply records_rows; [exact H |]. pose proof (lines_count rows). lia.
Qed.

End ReadBack.

(** ** CSV export *)

Lemma replace_newlines (l : list ascii) :
  replace_char newline [" "%char] l = spaces_for_newlines l.
Proof.
  unfold replace_char, spaces_for_newlines.
  induction l as [| c l IH]; [reflexivity |].
  cbn [flat_map map]. rewrite IH. now destruct (ascii_eqb c newline).
Qed.

Lemma writerow_seven (a b c d e f g : pyval) :
  Csv.writerow [a; b; c; d; e; f; g]
  = csv_record [Csv.cell a; Csv.cell b; Csv.cell c; Csv.cell d; Csv.cell e; Csv.cell f; Csv.cell g].
Proof. unfold Csv.writerow, csv_record. cbn [map]. now destruct (Csv.cell a). Qed.

Lemma cell_of_str (x : option pyval) :
  is_str x = true -> Csv.cell (default (PStr "") x) = text x.
Proof. destruct x as [[] |]; try discriminate. reflexivity. Qed.

Lemma cell_of_opt_str (x : option pyval) :
  is_opt_str x = true -> Csv.cell (default (PStr "") x) = text x.
Proof. destruct x as [[] |]; try discriminate; reflexivity. Qed.

Lemma cell_of_float (x : option pyval) :
  is_float x = true -> Csv.cell (default (PStr "") x) = number_text x.
Proof.
  destruct x as [[] |]; try discriminate. intros _.
  change (chars (str_of (chars (float_repr f))) = chars (float_repr f)).
  apply chars_str_of.
Qed.

Lemma care_of_opt_str (x : option pyval) :
  is_opt_str x = true ->
  por (default (PStr "") x) (PStr "") = PStr (str_of (text x)).
Proof.
  destruct x as [[] |]; try discriminate; intros _; try reflexivity.
  change (por (PStr s) (PStr "") = PStr (str_of (chars s))).
  rewrite str_of_chars. unfold por. cbn [truthy].
  destruct (String.eqb s "") eqn:E; [| reflexivity].
  apply String.eqb_eq in E. now subst.
Qed.

Lemma export_row_product (d : gmap string pyval) (w : world) :
  is_product d = true ->
  export_row d w = (Return (csv_record (export_cells d)), w).
Proof.
  intros H. apply is_product_fields in H as (_ & Hn & Hc & Hp & Ha & Hs & Hk & Hi).
  unfold export_row, get_or. rewrite (care_of_opt_str _ Hk).
  unfold bind, ret. rewrite writerow_seven.
  rewrite (cell_of_str _ Hn), (cell_of_str _ Hc), (cell_of_float _ Hp), (cell_of_str _ Ha),
    (cell_of_opt_str _ Hs), (cell_of_opt_str _ Hi).
  cbn [Csv.cell str]. rewrite !chars_str_of, replace_newlines. reflexivity.
Qed.

Lemma flat_map_cells {A} (f : A -> list (list ascii)) (l : list A) :
  flat_map (fun x => csv_record (f x)) l = flat_map csv_record (map f l).
Proof. induction l as [| x l IH]; cbn; [reflexivity | now rewrite IH]. Qed.

(** C6: the export is the English header row followed by one record per
    stored product in the order of the store, and a CSV reader reads it
    back as exactly these records; the care cell has a space for each
    newline of the care text, and an optional field that is missing gives
    an empty cell. *)
Theorem export_is_header_and_rows (w : world) (d : database) :
  db w = Some d ->
  Forall (fun doc => is_product doc = true) (products d) ->
  export_products_csv w
  = (Return {| body := str_of (header_line
                               ++ flat_map (fun doc => csv_record (export_cells doc))
                                           (products d));
               media_type := "text/csv";
               content_disposition := "attachment; filename=products.csv" |},
     issue (OpFind COLL_PRODUCTS ∅) w)
  /\ Csv.reader (str_of (header_line
                         ++ flat_map (fun doc => csv_record (export_cells doc)) (products d)))
     = (["name"; "category"; "price"; "availability"; "sku"; "care"; "image"]
          :: map (fun doc => map str_of (export_cells doc)) (products d),
        false)
  /\ (forall doc, In doc (products d) ->
        length (export_cells doc) = 7%nat
        /\ (forall care, doc !! "care" = Some (PStr care) ->
              export_cells doc !! 5%nat = Some (spaces_for_newlines (chars care))
              /\ length (spaces_for_newlines (chars care)) = length (chars care)
              /\ Forall (fun c => ascii_eqb c newline = false)
                        (spaces_for_newlines (chars care)))
        /\ (forall key i, In (key, i) [("sku", 4%nat); ("care", 5%nat); ("image", 6%nat)] ->
              doc !! key = None \/ doc !! key = Some PNone ->
              export_cells doc !! i = Some [])).
Proof.
  intros Hd Hp. split; [| split].
  - unfold export_products_csv.
    rewrite (bind_return _ _ _ _ _ (require_db_Some w d Hd)).
    rewrite (bind_return _ _ _ _ _ (find_all COLL_PRODUCTS w d Hd)).
    erewrite bind_return.
    2:{ apply (map_M_pure export_row (fun doc => csv_record (export_cells doc))).
        intros doc Hdoc. apply export_row_product.
        rewrite Forall_forall in Hp. apply Hp. now apply list_elem_of_In. }
    unfold ret, products. rewrite <- flat_map_concat_map. reflexivity.
  - change header_line with (csv_record header_cells). rewrite flat_map_cells.
    change (csv_record header_cells ++ flat_map csv_record (map export_cells (products d)))
      with (flat_map csv_record (header_cells :: map export_cells (products d))).
    rewrite reader_of_rows.
    + cbn [map]. now rewrite map_map.
    + constructor; [split; discriminate |].
      apply Forall_forall. intros cells Hc.
      apply list_elem_of_In, in_map_iff in Hc as (doc & <- & _). split; discriminate.
  - intros doc _. split; [reflexivity |]. split.
    + intros care Hc. unfold export_cells. rewrite Hc. cbn [text].
      split; [reflexivity |]. split; [apply length_map |].
      unfold spaces_for_newlines. apply Forall_forall. intros c Hin.
      apply list_elem_of_In, in_map_iff in Hin as (x & <- & _).
      destruct (ascii_eqb x newline) eqn:E; [reflexivity | exact E].
    + intros key i Hin Hmiss. unfold export_cells.
      destruct Hin as [[= <- <-] | [[= <- <-] | [[= <- <-] | []]]];
        destruct Hmiss as [-> | ->]; reflexivity.
Qed.

Lemma export_witness :
  export_products_csv w_catalogue
  = (Return {| body := str_of (header_line
                               ++ flat_map (fun doc => csv_record (export_cells doc))
                                           (products catalogue));
               media_type := "text/csv";
               content_disposition := "attachment; filename=products.csv" |},
     issue (OpFind COLL_PRODUCTS ∅) w_catalogue)
  /\ Csv.reader (str_of (header_line
                         ++ flat_map (fun doc => csv_record (export_cells doc))
                                     (products catalogue)))
     = (["name"; "category"; "price"; "availability"; "sku"; "care"; "image"]
          :: map (fun doc => map str_of (export_cells doc)) (products catalogue),
        false).
Proof.
  assert (P : Forall (fun doc => is_product doc = true) (products catalogue)).
  { repeat (constructor; [vm_compute; reflexivity |]). constructor. }
  destruct (export_is_header_and_rows w_catalogue catalogue eq_refl P) as (E & R & _).
  exact (conj E R).
Defined.

(** The text of the sample export: the newline of the care text is a
    space, and the missing fields are empty cells. *)
Example export_sample :
  body <$> (match fst (export_products_csv w_catalogue) with
            | Return r => Some r
            | Raise _ => None
            end)
  = Some (str_of (chars "name,category,price,availability,sku,care,image"
                  ++ [carriage_return; newline]
                  ++ chars "Ruza,grmovi,12.0,na stanju,R-1,Puno sunca Malo vode ,http://x.hr/ruza.webp"
                  ++ [carriage_return; newline]
                  ++ chars "Aloe,sobne biljke,0.0,rasprodano,,,"
                  ++ [carriage_return; newline]
                  ++ chars "a.b,sobne biljke,3.0,na stanju,,,"
                  ++ [carriage_return; newline])).
Proof. vm_compute. reflexivity. Qed.

(** ** Sorting *)

Lemma insert_sorted_perm {A} (leb : A -> A -> bool) (x : A) (l : list A) :
  Permutation (insert_sorted leb x l) (x :: l).
Proof.
  induction l as [| y l IH]; cbn; [reflexivity |].
  destruct (leb x y); [reflexivity |].
  rewrite IH. apply perm_swap.
Qed.

Lemma sort_perm (key : string) (dir : Z) (l : list (gmap string pyval)) :
  Permutation (sort key dir l) l.
Proof.
  unfold sort. induction l as [| x l IH]; cbn; [reflexivity |].
  rewrite insert_sorted_perm. now constructor.
Qed.

Lemma insert_sorted_Sorted {A} (leb : A -> A -> bool) (x : A) (l : list A) :
  (forall y, In y l -> leb x y = false -> leb y x = true) ->
  Sorted (fun a b => leb a b = true) l ->
  Sorted (fun a b => leb a b = true) (insert_sorted leb x l).
Proof.
  intros Htot Hs. induction l as [| y l IH]; cbn.
  - repeat constructor.
  - destruct (leb x y) eqn:E.
    + constructor; [exact Hs |]. now constructor.
    + apply Sorted_inv in Hs as [Hs Hhd]. constructor.
      * apply IH; [| exact Hs]. intros z Hz. apply Htot. now right.
      * destruct l as [| z l]; cbn.
        -- constructor. apply Htot; [now left | exact E].
        -- destruct (leb x z) eqn:E'.
           ++ constructor. apply Htot; [now left | exact E].
           ++ constructor. now apply HdRel_inv in Hhd.
Qed.

Lemma compare_chars_antisym (a b : list ascii) :
  compare_chars b a = CompOpp (compare_chars a b).
Proof.
  revert b. induction a as [| x a IH]; intros [| y b]; cbn; try reflexivity.
  rewrite (N.compare_antisym (N_of_ascii x) (N_of_ascii y)).
  destruct (N_of_ascii x ?= N_of_ascii y)%N; cbn; [apply IH | reflexivity | reflexivity].
Qed.

Lemma compare_chars_trans (a b c : list ascii) :
  compare_chars a b <> Gt -> compare_chars b c <> Gt -> compare_chars a c <> Gt.
Proof.
  revert b c. induction a as [| x a IH]; intros [| y b] [| z c]; cbn; try congruence.
  destruct (N.compare_spec (N_of_ascii x) (N_of_ascii y)) as [E1 | L1 | G1];
    destruct (N.compare_spec (N_of_ascii y) (N_of_ascii z)) as [E2 | L2 | G2];
    try congruence.
  - rewrite E1, E2, N.compare_refl. apply IH.
  - rewrite E1. intros _ _. now rewrite (proj2 (N.compare_lt_iff _ _) L2).
  - rewrite <- E2. intros _ _. now rewrite (proj2 (N.compare_lt_iff _ _) L1).
  - intros _ _. now rewrite (proj2 (N.compare_lt_iff _ _) (N.lt_trans _ _ _ L1 L2)).
Qed.

(** ** Patterns *)

Lemma not_meta_ordinary (c : ascii) :
  Regex.is_meta c = false -> ascii_eqb c backslash = false /\ ascii_eqb c "." = false.
Proof.
  unfold Regex.is_meta, has_char, Regex.metachars. cbn [existsb].
  intros H. repeat (apply orb_false_elim in H as [? H]). now split.
Qed.

(** A pattern of ordinary characters compiles to those characters. *)
Lemma compile_plain (l : list ascii) :
  forallb (fun c => negb (Regex.is_meta c)) l = true ->
  Regex.compile l = Regex.Pattern (map Regex.Lit l).
Proof.
  induction l as [| c l IH]; [reflexivity |].
  cbn [forallb]. intros H. apply andb_prop in H as [Hc Hl].
  apply negb_true_iff in Hc. destruct (not_meta_ordinary c Hc) as [Hb Hd].
  cbn [Regex.compile map]. now rewrite Hb, Hd, Hc, (IH Hl).
Qed.

Lemma lower_cons (c : ascii) (l : list ascii) : lower (c :: l) = to_lower c :: lower l.
Proof. reflexivity. Qed.

Lemma match_here_lits (q text : list ascii) :
  Regex.match_here true (map Regex.Lit q) text = true
  <-> exists post, lower text = lower q ++ post.
Proof.
  revert text. induction q as [| x q IH]; intros text; cbn [map Regex.match_here].
  - split; [intros _; now exists (lower text) | reflexivity].
  - destruct text as [| c text].
    + split; [discriminate | intros (post & H); discriminate H].
    + unfold Regex.atom_matches. rewrite andb_true_iff, (IH text), !lower_cons.
      unfold ascii_eqb. rewrite Ascii.eqb_eq. split.
      * intros [-> (post & ->)]. now exists post.
      * intros (post & H). injection H as -> ->. split; [reflexivity | now exists post].
Qed.

(** Searching a pattern of ordinary characters, caseless, is looking for
    it as a substring, letter case aside. *)
Lemma search_lits (q text : list ascii) :
  Regex.search true (map Regex.Lit q) text = true
  <-> exists pre post, lower text = pre ++ lower q ++ post.
Proof.
  induction text as [| c text IH]; cbn [Regex.search].
  - rewrite orb_false_r, match_here_lits. split.
    + intros (post & H). now exists [], post.
    + intros (pre & post & H). change (lower []) with (@nil ascii) in H. symmetry in H.
      apply app_eq_nil in H as [-> H]. exists post. now rewrite H.
  - rewrite orb_true_iff, match_here_lits, IH, lower_cons. split.
    + intros [(post & H) | (pre & post & H)].
      * now exists [], post.
      * exists (to_lower c :: pre), post. now rewrite H.
    + intros ([| p pre] & post & H).
      * left. now exists post.
      * right. injection H as _ H. now exists pre, post.
Qed.

(** ** Queries *)

Lemma forallb_perm {A} (f : A -> bool) (l l' : list A) :
  Permutation l l' -> forallb f l = forallb f l'.
Proof.
  induction 1 as [| x l l' _ IH | x y l | l l' l'' _ IH1 _ IH2]; cbn.
  - reflexivity.
  - now rewrite IH.
  - destruct (f x), (f y); reflexivity.
  - now rewrite IH1.
Qed.

Lemma existsb_perm {A} (f : A -> bool) (l l' : list A) :
  Permutation l l' -> existsb f l = existsb f l'.
Proof.
  induction 1 as [| x l l' _ IH | x y l | l l' l'' _ IH1 _ IH2]; cbn.
  - reflexivity.
  - now rewrite IH.
  - destruct (f x), (f y); reflexivity.
  - now rewrite IH1.
Qed.

Lemma forallb_insert {V} (f : string * V -> bool) (m : gmap string V) (k : string) (v : V) :
  m !! k = None ->
  forallb f (map_to_list (<[k := v]> m)) = f (k, v) && forallb f (map_to_list m).
Proof. intros H. now rewrite (forallb_perm f _ _ (map_to_list_insert m k v H)). Qed.

Lemma existsb_insert {V} (f : string * V -> bool) (m : gmap string V) (k : string) (v : V) :
  m !! k = None ->
  existsb f (map_to_list (<[k := v]> m)) = f (k, v) || existsb f (map_to_list m).
Proof. intros H. now rewrite (existsb_perm f _ _ (map_to_list_insert m k v H)). Qed.

(** The query the listing builds from its three parameters. *)
Lemma list_products_unfold (category availability q : option string) (w : world) (d : database) :
  db w = Some d ->
  exists query : gmap string cond,
    list_products category availability q w
    = bind (find COLL_PRODUCTS query) (fun docs => map_M from_mongo (sort "name" 1 docs)) w
    /\ (forall doc,
          matches query doc
          = (if truthy (param category)
             then holds (CEq (param category)) (doc !! "category") else true)
            && (if truthy (param availability)
                then holds (CEq (param availability)) (doc !! "availability") else true)
            && (if truthy (param q)
                then holds (CRegex (str (param q)) "i") (doc !! "name") else true))
    /\ (forall f : cond -> bool,
          (forall v, f (CEq v) = false) ->
          existsb (fun kc => f (snd kc)) (map_to_list query)
          = if truthy (param q) then f (CRegex (str (param q)) "i") else false).
Proof.
  intros Hd. unfold list_products.
  rewrite (bind_return _ _ _ _ _ (require_db_Some w d Hd)).
  eexists. split; [reflexivity |].
  split.
  - intros doc. unfold matches.
    destruct (truthy (param category)), (truthy (param availability)), (truthy (param q));
      repeat (rewrite forallb_insert
                by (repeat (rewrite lookup_insert_ne by discriminate); apply lookup_empty));
      rewrite map_to_list_empty; cbn [forallb fst snd];
      repeat match goal with
             | |- context [holds ?c ?x] => destruct (holds c x)
             end; reflexivity.
  - intros f Hf.
    destruct (truthy (param category)), (truthy (param availability)), (truthy (param q));
      repeat (rewrite existsb_insert
                by (repeat (rewrite lookup_insert_ne by discriminate); apply lookup_empty));
      rewrite map_to_list_empty; cbn [existsb fst snd];
      rewrite ?Hf, ?orb_false_r; reflexivity.
Qed.

(** ** The records returned for stored products *)

Lemma hex_digit_val (n : N) :
  (n < 16)%N ->
  Bson.hex_val (hex_digit n) = Some n /\ Bson.ascii_space (hex_digit n) = false.
Proof.
  intros H.
  assert (E : In n [0; 1; 2; 3; 4; 5; 6; 7; 8; 9; 10; 11; 12; 13; 14; 15]%N).
  { cbn. lia. }
  cbn in E. repeat (destruct E as [<- | E]; [split; reflexivity |]). destruct E.
Qed.

Lemma fromhex_hexlify (o : oid) :
  forallb (fun b => (b <? 256)%N) o = true -> Bson.fromhex (hexlify o) = Some o.
Proof.
  induction o as [| b o IH]; [reflexivity |].
  cbn [forallb]. intros H. apply andb_prop in H as [Hb Ho]. apply N.ltb_lt in Hb.
  change (hexlify (b :: o)) with (hex_digit (b / 16) :: hex_digit (b mod 16) :: hexlify o).
  assert (H1 : (b / 16 < 16)%N) by (apply N.Div0.div_lt_upper_bound; lia).
  assert (H2 : (b mod 16 < 16)%N) by (apply N.mod_lt; lia).
  destruct (hex_digit_val _ H1) as [V1 S1]. destruct (hex_digit_val _ H2) as [V2 _].
  cbn [Bson.fromhex]. rewrite S1, V1, V2, (IH Ho).
  change (Some ((b / 16 * 16 + b mod 16)%N :: o) = Some (b :: o)).
  do 2 f_equal. rewrite N.mul_comm. symmetry. now apply N.div_mod.
Qed.

Lemma length_hexlify (o : oid) : length (hexlify o) = (2 * length o)%nat.
Proof.
  induction o as [| b o IH]; [reflexivity |].
  change (hexlify (b :: o)) with (hex_digit (b / 16) :: hex_digit (b mod 16) :: hexlify o).
  cbn [length]. rewrite IH. lia.
Qed.

(** The response model declares its [id] with a version 1 style validator,
    which the library calls with one argument too many: no record is ever
    built. *)
Lemma from_mongo_raises (doc : gmap string pyval) (w : world) :
  from_mongo doc w = (Raise TypeError, w).
Proof.
  unfold from_mongo, construct, lift, validate_model, model_crashes, ProductOut.
  cbn [existsb fname annotation]. rewrite lookup_insert_eq. reflexivity.
Qed.

Lemma records_of_found (l : list (gmap string pyval)) (w : world) :
  map_M from_mongo l w
  = (match l with [] => Return [] | _ :: _ => Raise TypeError end, w).
Proof.
  destruct l as [| doc l]; [reflexivity |].
  cbn [map_M]. apply bind_raise, from_mongo_raises.
Qed.

(** ** Product listing *)

Lemma holds_field (key : string) (v : option string) (doc : gmap string pyval) :
  is_str (doc !! key) = true ->
  (if truthy (param v) then holds (CEq (param v)) (doc !! key) else true)
  = field_is key v doc.
Proof.
  intros H. destruct v as [s |]; [| reflexivity].
  cbn [param truthy field_is]. destruct (String.eqb s ""); [reflexivity |].
  destruct (doc !! key) as [[] |]; try discriminate.
  cbn. now rewrite orb_false_r.
Qed.

Lemma holds_name (q : option string) (doc : gmap string pyval) :
  is_str (doc !! "name") = true ->
  (if truthy (param q) then holds (CRegex (str (param q)) "i") (doc !! "name") else true)
  = name_matches q doc.
Proof.
  intros H. destruct q as [s |]; [| reflexivity].
  cbn [param truthy name_matches str]. destruct (String.eqb s ""); [reflexivity |].
  destruct (doc !! "name") as [[] |]; try discriminate.
  cbn [negb orb holds candidates existsb]. destruct (Regex.compile (chars s)); try reflexivity.
  now rewrite orb_false_r.
Qed.

Lemma accepted_no_error (q : option string) :
  accepted q = true ->
  (if truthy (param q)
   then is_malformed (pattern_of (CRegex (str (param q)) "i")) else false) = false
  /\ (if truthy (param q)
      then is_unsupported (pattern_of (CRegex (str (param q)) "i")) else false) = false.
Proof.
  destruct q as [s |]; [| now split].
  cbn [accepted param truthy str pattern_of]. unfold compiles.
  destruct (String.eqb s ""); [now split |].
  cbn [orb negb]. destruct (Regex.compile (chars s)); try discriminate. now split.
Qed.

(** The listing asks the store once, for the products that pass the
    filters; it sorts what the store finds by name and then builds the
    records. *)
Lemma list_products_spec (category availability q : option string) (w : world) (d : database) :
  db w = Some d ->
  Forall (fun doc => is_product doc = true) (products d) ->
  accepted q = true ->
  exists query,
    find_docs d COLL_PRODUCTS query = List.filter (selected category availability q) (products d)
    /\ list_products category availability q w
       = (match sort "name" 1 (List.filter (selected category availability q) (products d))
          with
          | [] => Return []
          | _ :: _ => Raise TypeError
          end,
          issue (OpFind COLL_PRODUCTS query) w).
Proof.
  intros Hd Hp Hq.
  destruct (list_products_unfold category availability q w d Hd) as (query & E & Hm & Hx).
  exists query. rewrite E. clear E.
  destruct (accepted_no_error q Hq) as [M U].
  assert (D : find_docs d COLL_PRODUCTS query
              = List.filter (selected category availability q) (products d)).
  { unfold find_docs, products. apply filter_ext_in. intros doc Hdoc.
    rewrite Forall_forall in Hp. specialize (Hp doc (proj2 (list_elem_of_In _ _) Hdoc)).
    apply is_product_fields in Hp as (_ & Hn & Hc & _ & Ha & _).
    rewrite Hm, (holds_field _ _ _ Hc), (holds_field _ _ _ Ha), (holds_name _ _ Hn).
    reflexivity. }
  split; [exact D |].
  assert (F : find COLL_PRODUCTS query w
              = (Return (List.filter (selected category availability q) (products d)),
                 issue (OpFind COLL_PRODUCTS query) w)).
  { unfold find, query_error. rewrite Hd.
    rewrite (Hx (fun c => is_malformed (pattern_of c)) (fun _ => eq_refl)), M.
    rewrite (Hx (fun c => is_unsupported (pattern_of c)) (fun _ => eq_refl)), U.
    now rewrite D. }
  rewrite (bind_return _ _ _ _ _ F). apply records_of_found.
Qed.

(** *** Order of the listing *)

Lemma name_le_trans (a b c : gmap string pyval) : name_le a b -> name_le b c -> name_le a c.
Proof.
  intros (x & y & Hx & Hy & L1) (y' & z & Hy' & Hz & L2).
  rewrite Hy in Hy'. injection Hy' as <-.
  exists x, z. repeat split; try assumption. now apply (compare_chars_trans _ (chars y)).
Qed.

Lemma in_order_name_le (a b : gmap string pyval) :
  is_str (a !! "name") = true -> is_str (b !! "name") = true ->
  (in_order "name" 1 a b = true <-> name_le a b)
  /\ (in_order "name" 1 a b = false -> in_order "name" 1 b a = true).
Proof.
  unfold in_order, name_le.
  destruct (a !! "name") as [[| | | | x | | |] |] eqn:Ea; try discriminate.
  destruct (b !! "name") as [[| | | | y | | |] |] eqn:Eb; try discriminate. intros _ _.
  cbn [compare_values]. rewrite (compare_chars_antisym (chars x) (chars y)).
  destruct (compare_chars (chars x) (chars y)) eqn:C; cbn [CompOpp].
  - split; [| discriminate]. split; [| reflexivity].
    intros _. exists x, y. rewrite C. repeat split. discriminate.
  - split; [| discriminate]. split; [| reflexivity].
    intros _. exists x, y. rewrite C. repeat split. discriminate.
  - split; [| reflexivity]. split; [discriminate |].
    intros (x' & y' & Hx & Hy & L). injection Hx as <-. injection Hy as <-.
    now destruct L.
Qed.

Lemma sort_by_name_sorted (l : list (gmap string pyval)) :
  Forall (fun doc => is_str (doc !! "name") = true) l ->
  StronglySorted name_le (sort "name" 1 l).
Proof.
  intros H.
  assert (Hs : Forall (fun doc => is_str (doc !! "name") = true) (sort "name" 1 l)).
  { rewrite Forall_forall in H |- *. intros doc Hdoc. apply H.
    apply list_elem_of_In. apply list_elem_of_In in Hdoc.
    now apply (Permutation_in _ (sort_perm "name" 1 l)). }
  assert (S1 : Sorted (fun a b => in_order "name" 1 a b = true) (sort "name" 1 l)).
  { clear Hs. unfold sort. induction l as [| x l IH]; [constructor |].
    apply Forall_cons in H as [Hx H]. cbn [foldr].
    apply insert_sorted_Sorted; [| now apply IH].
    intros y Hy. apply in_order_name_le; [exact Hx |].
    rewrite Forall_forall in H. apply H, list_elem_of_In.
    now apply (Permutation_in _ (sort_perm "name" 1 l)). }
  apply Sorted_StronglySorted; [exact name_le_trans |].
  induction S1 as [| x r _ IH Hhd]; [constructor |].
  apply Forall_cons in Hs as [Hx Hs]. constructor; [now apply IH |].
  destruct Hhd as [| y r Hxy]; constructor.
  apply Forall_cons in Hs as [Hy _]. now apply in_order_name_le.
Qed.

(** C9, as the code has it: for every stored set of products and every
    combination of the three filters in which [q] is left out, empty, or a
    pattern the store accepts, the listing asks the store for the products
    that pass all the provided filters and puts them in ascending order of
    name. When there is none it returns the empty list. When there is one
    or more it raises [TypeError] while building the first record, and
    returns nothing. *)
Theorem listing_raises_on_any_result (category availability q : option string)
    (w : world) (d : database) :
  db w = Some d ->
  Forall (fun doc => is_product doc = true) (products d) ->
  accepted q = true ->
  exists found query,
    find_docs d COLL_PRODUCTS query = List.filter (selected category availability q) (products d)
    /\ Permutation found (List.filter (selected category availability q) (products d))
    /\ (forall doc, In doc found <->
          In doc (products d)
          /\ field_is "category" category doc = true
          /\ field_is "availability" availability doc = true
          /\ name_matches q doc = true)
    /\ StronglySorted name_le found
    /\ list_products category availability q w
       = (match found with [] => Return [] | _ :: _ => Raise TypeError end,
          issue (OpFind COLL_PRODUCTS query) w).
Proof.
  intros Hd Hp Hq.
  destruct (list_products_spec category availability q w d Hd Hp Hq) as (query & D & E).
  set (kept := List.filter (selected category availability q) (products d)) in *.
  exists (sort "name" 1 kept), query.
  split; [exact D |]. split; [apply sort_perm |]. split; [| split; [| exact E]].
  - intros doc. split.
    + intros Hdoc. apply (Permutation_in _ (sort_perm _ _ _)), filter_In in Hdoc as [Hdoc Hs].
      unfold selected in Hs. apply andb_prop in Hs as [Hs Hn]. apply andb_prop in Hs as [Hc Ha].
      auto.
    + intros (Hdoc & Hc & Ha & Hn).
      apply (Permutation_in _ (Permutation_sym (sort_perm _ _ _))), filter_In.
      split; [exact Hdoc |]. unfold selected. now rewrite Hc, Ha, Hn.
  - apply sort_by_name_sorted. apply Forall_forall. intros doc Hdoc.
    apply list_elem_of_In, filter_In in Hdoc as [Hdoc _].
    rewrite Forall_forall in Hp. specialize (Hp doc (proj2 (list_elem_of_In _ _) Hdoc)).
    now apply is_product_fields in Hp as (_ & Hn & _).
Qed.

(** The listing of the sample catalogue without any filter: three products
    are found, and the request ends in [TypeError]. *)
Lemma listing_raises_witness :
  length (products catalogue) = 3%nat
  /\ fst (list_products None None None w_catalogue) = Raise TypeError.
Proof.
  split; [reflexivity |].
  destruct (listing_raises_on_any_result None None None w_catalogue catalogue eq_refl)
    as (found & query & _ & P & _ & _ & E).
  - repeat (constructor; [vm_compute; reflexivity |]). constructor.
  - reflexivity.
  - rewrite E. cbn [fst]. apply Permutation_length in P.
    destruct found as [| doc found]; [discriminate P | reflexivity].
Defined.

(** Only the listing that finds nothing returns; a pattern that is no
    regular expression makes the store refuse the query. *)
Example listing_samples :
  fst (list_products None None None w_catalogue) = Raise TypeError
  /\ fst (list_products (Some "sobne biljke") (Some "") (Some "A") w_catalogue) = Raise TypeError
  /\ fst (list_products (Some "grmovi") (Some "rasprodano") None w_catalogue) = Return []
  /\ fst (list_products None None (Some "rU") w_catalogue) = Raise TypeError
  /\ fst (list_products None None (Some (str_of [backslash])) w_catalogue)
     = Raise OperationFailure.
Proof. repeat split; vm_compute; reflexivity. Qed.

Lemma plain_accepted (q : string) : plain q = true -> accepted (Some q) = true.
Proof.
  intros H. unfold accepted, compiles. rewrite (compile_plain _ H). apply orb_true_r.
Qed.

Lemma plain_name_matches (q : string) (doc : gmap string pyval) :
  plain q = true -> is_str (doc !! "name") = true ->
  name_matches (Some q) doc = true <-> name_contains q doc.
Proof.
  intros Hq Hn. unfold name_matches, name_contains, contains_ci.
  rewrite (compile_plain _ Hq).
  destruct (doc !! "name") as [[| | | | n | | |] |]; try discriminate.
  rewrite orb_true_iff, search_lits. split.
  - intros [E | (pre & post & H)].
    + apply String.eqb_eq in E. subst q. exists n. split; [reflexivity |].
      now exists [], (lower (chars n)).
    + exists n. split; [reflexivity |]. now exists pre, post.
  - intros (n' & [= <-] & pre & post & H). right. now exists pre, post.
Qed.

(** C1, as amended: for every stored set of products and every [q] made
    of ordinary characters (none of the pattern operators), the one query
    the listing puts to the store selects exactly the products whose name
    contains [q], letter case aside; when no name contains [q] the listing
    returns the empty list. *)
Theorem listing_by_plain_substring (q : string) (w : world) (d : database) :
  db w = Some d ->
  Forall (fun doc => is_product doc = true) (products d) ->
  plain q = true ->
  exists query,
    snd (list_products None None (Some q) w) = issue (OpFind COLL_PRODUCTS query) w
    /\ (forall doc, In doc (find_docs d COLL_PRODUCTS query)
                    <-> In doc (products d) /\ name_contains q doc)
    /\ ((forall doc, In doc (products d) -> ~ name_contains q doc) ->
        fst (list_products None None (Some q) w) = Return []).
Proof.
  intros Hd Hp Hq.
  destruct (list_products_spec None None (Some q) w d Hd Hp (plain_accepted q Hq))
    as (query & D & E).
  assert (K : forall doc, In doc (products d) ->
                selected None None (Some q) doc = true <-> name_contains q doc).
  { intros doc Hdoc. rewrite Forall_forall in Hp.
    specialize (Hp doc (proj2 (list_elem_of_In _ _) Hdoc)).
    apply is_product_fields in Hp as (_ & Hn & _).
    unfold selected, field_is. cbn [andb]. now apply plain_name_matches. }
  exists query. rewrite E, D. cbn [fst snd]. split; [reflexivity |]. split.
  - intros doc. rewrite filter_In. split.
    + intros [Hdoc Hs]. split; [exact Hdoc |]. now apply K.
    + intros [Hdoc Hs]. split; [exact Hdoc |]. now apply K.
  - intros None_.
    assert (F : List.filter (selected None None (Some q)) (products d) = []).
    { destruct (List.filter _ _) as [| doc l] eqn:F; [reflexivity |].
      assert (Hin : In doc (List.filter (selected None None (Some q)) (products d)))
        by (rewrite F; now left).
      apply filter_In in Hin as [Hdoc Hs]. apply K in Hs; [| exact Hdoc].
      now destruct (None_ doc Hdoc). }
    now rewrite F.
Qed.

Lemma listing_by_substring_witness :
  exists query,
    snd (list_products None None (Some "rU") w_catalogue)
    = issue (OpFind COLL_PRODUCTS query) w_catalogue
    /\ (forall doc, In doc (find_docs catalogue COLL_PRODUCTS query)
                    <-> In doc (products catalogue) /\ name_contains "rU" doc).
Proof.
  destruct (listing_by_plain_substring "rU" w_catalogue catalogue) as (query & S & F & _).
  - reflexivity.
  - repeat (constructor; [vm_compute; reflexivity |]). constructor.
  - reflexivity.
  - exists query. exact (conj S F).
Defined.

(** C1, as stated, fails: [q] is a pattern. In the pattern [a\.] the
    backslash makes the dot an ordinary character, so the pattern asks for
    an a followed by a dot. The one stored product is named [a\.]: its
    name contains [q], yet the query selects nothing and the listing
    returns the empty list. *)
Lemma literal_q_is_read_as_a_pattern :
  fst (list_products None None (Some odd_name) w_odd) = Return []
  /\ (exists doc, products odd_catalogue = [doc] /\ is_product doc = true
                  /\ name_contains odd_name doc)
  /\ chars odd_name = ["a"%char; backslash; "."%char].
Proof.
  split; [vm_compute; reflexivity |]. split; [| reflexivity].
  eexists. split; [reflexivity |]. split; [vm_compute; reflexivity |].
  exists odd_name. split; [vm_compute; reflexivity |].
  now exists [], [].
Qed.

(** The pattern [.] selects every product that has a name, though only
    one of the three names contains a dot. *)
Example dot_selects_every_name :
  map (fun doc => get doc "name")
      (find_docs catalogue COLL_PRODUCTS {[ "name" := CRegex "." "i" ]})
  = [PStr "Ruza"; PStr "Aloe"; PStr "a.b"].
Proof. vm_compute. reflexivity. Qed.
